(** * rudder-server: bounded frequency-counter cache and query execution helper

    A shallow embedding of
      - event-schema/counter_manager.go   (module [EventSchema])
      - warehouse/postgres/postgresQueryBuilder.go   (module [Postgres])
    together with the properties of these two files.

    Conventions of the embedding.
      - Go's [int] is a 64-bit two's complement integer: a [Z] with the
        wrap-around written out in [GoInt].
      - A Go [map[string]T] is a [gmap string T]; the package-level
        [countersCache] is threaded explicitly through every operation.
      - [for k, v := range m] visits every entry of [m] exactly once, in an
        order the language leaves open.  Each operation that ranges over a
        map takes, as its first argument, the function [rangeOrder] that
        picks the visiting order of that run; [range_order] says what such
        a function may do: permute the entries.
      - [*FrequencyCounter] values are opaque handles: the type, its
        constructors and its methods are declared elsewhere in the package,
        outside the two files embedded here, and are the members of the
        class [CounterOps]. *)

From Stdlib Require Import ZArith List Lia SpecFloat.
From stdpp Require Import gmap strings list fin_maps.

Local Open Scope Z_scope.

(** ** Go's machine integers *)

Module GoInt.

Definition min_int : Z := - 2 ^ 63.
Definition max_int : Z := 2 ^ 63 - 1.

(** Reduction of a mathematical integer to the 64-bit signed range. *)
Definition wrap (z : Z) : Z := (z + 2 ^ 63) mod 2 ^ 64 - 2 ^ 63.

Definition add (a b : Z) : Z := wrap (a + b).
Definition sub (a b : Z) : Z := wrap (a - b).
Definition mul (a b : Z) : Z := wrap (a * b).

(** The values an [int] variable can hold. *)
Definition in_range (z : Z) : Prop := min_int <= z <= max_int.

End GoInt.

(** ** float64

    IEEE-754 binary64 values, as the executable specification of the
    standard library has them; comparisons are [SFltb] and [SFleb], which
    are false as soon as one side is a NaN, as in Go. *)

Abbreviation float64 := spec_float (only parsing).

(** The constant [1.0] = 2^52 * 2^-52. *)
Definition float_one : float64 := S754_finite false 4503599627370496 (-52).
Definition float_zero : float64 := S754_zero false.

(** ** The entries a counter reports

    [ItemsAboveThreshold] returns a slice of entries, of which
    counter_manager.go reads the fields [Key] (line 121) and [Frequency]
    (line 116). *)

Module Entry.
Record t : Type := mk { Key : string; Frequency : float64 }.
End Entry.

(** ** event-schema/counter_manager.go *)

Module EventSchema.

(** What counter_manager.go uses of [FrequencyCounter]: the field [Name],
    the two constructors and the method [ItemsAboveThreshold]. *)
Class CounterOps : Type := {
  FrequencyCounter : Type;
  Name : FrequencyCounter -> string;
  NewFrequencyCounter : string -> FrequencyCounter;
  NewPeristedFrequencyCounter : FrequencyCounter -> FrequencyCounter;
  ItemsAboveThreshold : FrequencyCounter -> list Entry.t
}.

Record CounterItem : Type := mkCounterItem { Value : string; Frequency : float64 }.

(** [len(m)] of a map, as an [int]. *)
Definition len {V : Type} (m : gmap string V) : Z := Z.of_nat (size m).

(** [range m] yields every entry of [m] once, in an order of the
    runtime's choosing: a permutation of the entries. *)
Definition range_order {V : Type} (rangeOrder : list (string * V) -> list (string * V)) : Prop :=
  forall kvs, rangeOrder kvs ≡ₚ kvs.

Definition range {V : Type} (rangeOrder : list (string * V) -> list (string * V))
    (m : gmap string V) : list (string * V) :=
  rangeOrder (map_to_list m).

Section CounterManager.
Context `{ops : CounterOps}.

(** schemaHash -> Key -> FrequencyCounter *)
Abbreviation bucket := (gmap string FrequencyCounter).
Abbreviation cache := (gmap string (gmap string FrequencyCounter)).
Abbreviation order := (list (string * FrequencyCounter) -> list (string * FrequencyCounter)).

(** [countersCache[schemaHash]] read as a value: a missing key reads as
    the nil map, which behaves as the empty one. *)
Definition bucketOf (countersCache : cache) (schemaHash : string) : bucket :=
  default ∅ (countersCache !! schemaHash).

(** Lines 23-32: the loop of [populateFrequencyCountersBounded]. *)
Fixpoint populateLoop (frequencyCounters : list FrequencyCounter) (bound count : Z)
    (frequencyCountersMap : bucket) : bucket :=
  match frequencyCounters with
  | [] => frequencyCountersMap
  | fc :: rest =>
      if bound <=? count then frequencyCountersMap
      else populateLoop rest bound (GoInt.add count 1)
             (<[Name fc := NewPeristedFrequencyCounter fc]> frequencyCountersMap)
  end.

Definition populateFrequencyCountersBounded (countersCache : cache)
    (schemaHash : string) (frequencyCounters : list FrequencyCounter) (bound : Z) : cache :=
  let frequencyCountersMap := populateLoop frequencyCounters bound 0 ∅ in
  <[schemaHash := frequencyCountersMap]> countersCache.

(** Lines 79-86: the trimming loop, over the order [range] yields. *)
Fixpoint trimLoop (kvs : list (string * FrequencyCounter))
    (schemaVersionCounters : bucket) (toDelete : Z) : bucket :=
  match kvs with
  | [] => schemaVersionCounters
  | (k, _) :: rest =>
      if 0 <? toDelete
      then trimLoop rest (delete k schemaVersionCounters) (GoInt.sub toDelete 1)
      else schemaVersionCounters
  end.

(** The function returns the counter ([None] is Go's nil) and mutates
    the cache: the new cache is the first component. [rangeOrder]
    decides the order of the [range] at line 79. *)
Definition getFrequencyCounterBounded (rangeOrder : order)
    (countersCache : cache) (schemaHash key : string) (bound : Z)
    : cache * option FrequencyCounter :=
  let '(schemaVersionCounters, countersCache) :=
    match countersCache !! schemaHash with
    | Some m => (m, countersCache)
    | None => (∅, <[schemaHash := ∅]> countersCache)
    end in
  let diff := GoInt.sub bound (len schemaVersionCounters) in
  if diff =? 0 then
    (countersCache, schemaVersionCounters !! key)
  else if diff <? 0 then
    let toDelete := GoInt.mul (-1) diff in
    let trimmed :=
      trimLoop (range rangeOrder schemaVersionCounters) schemaVersionCounters toDelete in
    (<[schemaHash := trimmed]> countersCache, trimmed !! key)
  else
    match schemaVersionCounters !! key with
    | Some frequencyCounter => (countersCache, Some frequencyCounter)
    | None =>
        let frequencyCounter := NewFrequencyCounter key in
        (<[schemaHash := <[key := frequencyCounter]> schemaVersionCounters]> countersCache,
         Some frequencyCounter)
    end.

(** The package variable [frequencyCounterLimit] is declared outside
    counter_manager.go; the functions that read it take it as an
    argument. *)
Definition populateFrequencyCounters (frequencyCounterLimit : Z) (countersCache : cache)
    (schemaHash : string) (frequencyCounters : list FrequencyCounter) : cache :=
  populateFrequencyCountersBounded countersCache schemaHash frequencyCounters
    frequencyCounterLimit.

Definition getFrequencyCounter (frequencyCounterLimit : Z) (rangeOrder : order)
    (countersCache : cache) (schemaHash key : string) : cache * option FrequencyCounter :=
  getFrequencyCounterBounded rangeOrder countersCache schemaHash key frequencyCounterLimit.

(** The counters of a schema hash, in the order [range] yields them. *)
Definition getAllFrequencyCounters (rangeOrder : order) (countersCache : cache)
    (schemaHash : string) : list FrequencyCounter :=
  match countersCache !! schemaHash with
  | None => []
  | Some schemaVersionCounters => (range rangeOrder schemaVersionCounters).*2
  end.

(** Lines 114-122: entries to counter items, frequency capped at 1. *)
Definition capEntry (entry : Entry.t) : CounterItem :=
  let freq := Entry.Frequency entry in
  let freq := if SFltb float_one freq then float_one else freq in
  {| Value := Entry.Key entry; Frequency := freq |}.

Definition counterItemsOf (entries : list Entry.t) : list CounterItem :=
  map capEntry entries.

(** Lines 110-127: the outer loop, over the order [range] yields. *)
Fixpoint schemaVersionLoop (kvs : list (string * FrequencyCounter))
    (counters : gmap string (list CounterItem)) : gmap string (list CounterItem) :=
  match kvs with
  | [] => counters
  | (key, fc) :: rest =>
      let counterItems := counterItemsOf (ItemsAboveThreshold fc) in
      schemaVersionLoop rest
        (if 0 <? Z.of_nat (length counterItems)
         then <[key := counterItems]> counters else counters)
  end.

Definition getSchemaVersionCounters (rangeOrder : order) (countersCache : cache)
    (schemaHash : string) : gmap string (list CounterItem) :=
  let schemaVersionCounters := bucketOf countersCache schemaHash in
  schemaVersionLoop (range rangeOrder schemaVersionCounters) ∅.

(** The bucket the specification describes for a reload: the first
    [bound] persisted counters, in list order, each through the
    persisted-counter constructor and filed under its name. *)
Definition truncatedBucket (frequencyCounters : list FrequencyCounter) (bound : Z)
    : bucket :=
  foldl (fun m fc => <[Name fc := NewPeristedFrequencyCounter fc]> m) ∅
        (take (Z.to_nat bound) frequencyCounters).

(** Modelled from the spec: [ItemsAboveThreshold] is not part of
    counter_manager.go; the specification has it return the "entries
    above a fixed reporting threshold", the threshold being a "float in
    (0,1)". *)
Definition reports_above (threshold : float64) : Prop :=
  SFltb float_zero threshold = true /\ SFltb threshold float_one = true /\
  forall fc entry, entry ∈ ItemsAboveThreshold fc ->
    SFltb threshold (Entry.Frequency entry) = true.

End CounterManager.

(** *** A small instance of the counter operations

    Counters that carry their name and the entries they have tallied,
    reporting the entries whose frequency exceeds one half. *)

Record tally : Type := mkTally { tallyName : string; tallyEntries : list Entry.t }.

Definition float_half : float64 := S754_finite false 4503599627370496 (-53).
Definition float_two : float64 := S754_finite false 4503599627370496 (-51).

Definition tallyOps : CounterOps := {|
  FrequencyCounter := tally;
  Name := tallyName;
  NewFrequencyCounter := fun key => mkTally key [];
  NewPeristedFrequencyCounter := fun fc => mkTally (tallyName fc) (tallyEntries fc);
  ItemsAboveThreshold := fun fc =>
    List.filter (fun entry => SFltb float_half (Entry.Frequency entry)) (tallyEntries fc)
|}.

Definition tallyA : tally :=
  mkTally "A" [Entry.mk "red" float_two; Entry.mk "blue" float_one;
               Entry.mk "green" float_half].
Definition tallyB : tally := mkTally "B" [].
Definition tallyC : tally := mkTally "C" [Entry.mk "on" float_one].

(** One schema hash with the fields A, B and C tracked. *)
Definition tallyCache : gmap string (gmap string tally) :=
  {[ "hash" := {[ "A" := tallyA; "B" := tallyB; "C" := tallyC ]} ]}.

End EventSchema.

(** ** warehouse/postgres/postgresQueryBuilder.go *)

Module Postgres.

(** Go errors: a message, and for the ones [fmt.Errorf] builds with
    [%w] the error they wrap. *)
Inductive error : Type :=
| ErrNew (msg : string)
| ErrWrap (msg : string) (wrapped : error).

(** The method [Error()]. *)
Definition Error (err : error) : string :=
  match err with
  | ErrNew msg => msg
  | ErrWrap msg _ => msg
  end.

Section QueryExecution.
(** [Tx] and [DB] stand for the targets of [*sql.Tx] and [*sql.DB];
    [Result] for the non-nil values of [sql.Result]. *)
Context {Tx DB Result : Type}.

Record QueryExecution : Type := mkQueryExecution {
  txn : option Tx;
  db : option DB;
  query : string;
  enableWithQueryPlan : bool
}.

(** The handle a statement is sent on. *)
Inductive conn : Type :=
| OnTxn (t : Tx)
| OnDb (d : DB).

(** What the function does to the outside world, in program order. *)
Inductive event : Type :=
| EvQuery (c : conn) (sqlStatement : string)
| EvExec (c : conn) (sqlStatement : string)
| EvRowsClose
| EvInfof (msg : string).

(** [*sql.Rows], read to its end: what each successive [Scan] gives. *)
Abbreviation Rows := (list (error + string)).

(** The storage side: what [Query] and [Exec] answer, given everything
    that happened before. *)
Record Storage : Type := mkStorage {
  onQuery : list event -> conn -> string -> error + Rows;
  onExec : list event -> conn -> string -> option Result * option error
}.

Context (storage : Storage).
(** [fmt]'s rendering of [%+v] for a [*QueryExecution]. *)
Context (fmtQueryExecution : QueryExecution -> string).

(** Effects are a state monad over the trace of events. *)
Definition M (A : Type) : Type := list event -> A * list event.
Definition ret {A : Type} (a : A) : M A := fun tr => (a, tr).
Definition bind {A B : Type} (m : M A) (k : A -> M B) : M B :=
  fun tr => let '(a, tr') := m tr in k a tr'.
Definition emit (ev : event) : M unit := fun tr => (tt, tr ++ [ev]).

Notation "'run' x <- m ;; k" := (bind m (fun x => k))
  (at level 10, x name, m at level 99, k at level 200).

Definition Query (c : conn) (sqlStatement : string) : M (error + Rows) :=
  fun tr => (onQuery storage tr c sqlStatement, tr ++ [EvQuery c sqlStatement]).

Definition Exec (c : conn) (sqlStatement : string) : M (option Result * option error) :=
  fun tr => (onExec storage tr c sqlStatement, tr ++ [EvExec c sqlStatement]).

Definition errNoHandle (sqlStatement : string) : error :=
  ErrNew ("[WH][POSTGRES] Not able to handle query execution for statement: "
          +:+ sqlStatement +:+ " as both txn and db are nil").

Definition errQuery (sqlStatement : string) (err : error) : error :=
  ErrWrap ("[WH][POSTGRES] error occurred while handling transaction for query: "
           +:+ sqlStatement +:+ " with err: " +:+ Error err) err.

Definition errScan (e : QueryExecution) (err : error) : error :=
  ErrWrap ("[WH][POSTGRES] Error occurred while processing destination revisionID query "
           +:+ fmtQueryExecution e +:+ " with err: " +:+ Error err) err.

Definition newline : string := String (Ascii.ascii_of_nat 10) EmptyString.

Definition planMessage (sqlStatement : string) (response : list string) : string :=
  "[WH][POSTGRES] Execution Query plan for statement: " +:+ sqlStatement
  +:+ " is " +:+ String.concat newline response.

(** The handle used, [txn] first (lines 27-34 and 53-60). *)
Definition handleOf (e : QueryExecution) : option conn :=
  match txn e, db e with
  | Some t, _ => Some (OnTxn t)
  | None, Some d => Some (OnDb d)
  | None, None => None
  end.

(** Lines 42-49: the first failing [Scan] ends the loop with its error. *)
Fixpoint scanRows (rows : Rows) (response : list string) : error + list string :=
  match rows with
  | [] => inr response
  | inl err :: _ => inl err
  | inr s :: rest => scanRows rest (response ++ [s])
  end.

(** Lines 53-61, run on the value [sqlStatement] has at that point. *)
Definition execStatement (e : QueryExecution) (sqlStatement : string)
    : M (option Result * option error) :=
  match handleOf e with
  | Some c => Exec c sqlStatement
  | None => ret (None, Some (errNoHandle sqlStatement))
  end.

(** Returns the named results [(result, err)]. Line 24 assigns the
    variable [sqlStatement] declared at line 21, so the statement of
    lines 53-61 is the assigned one; the deferred [rows.Close()] runs
    when the function returns. *)
Definition handleQueryExecution (e : QueryExecution)
    : M (option Result * option error) :=
  let sqlStatement := query e in
  if enableWithQueryPlan e then
    let sqlStatement := "EXPLAIN " +:+ query e in
    match handleOf e with
    | None => ret (None, Some (errNoHandle sqlStatement))
    | Some c =>
        run rows <- Query c sqlStatement ;;
        match rows with
        | inl err => ret (None, Some (errQuery sqlStatement err))
        | inr rows =>
            match scanRows rows [] with
            | inl err =>
                run _ <- emit EvRowsClose ;;
                ret (None, Some (errScan e err))
            | inr response =>
                run _ <- emit (EvInfof (planMessage sqlStatement response)) ;;
                run res <- execStatement e sqlStatement ;;
                run _ <- emit EvRowsClose ;;
                ret res
            end
        end
    end
  else execStatement e sqlStatement.

(** The statements sent through [Exec], in order. *)
Definition executed (tr : list event) : list string :=
  omap (fun ev => match ev with EvExec _ s => Some s | _ => None end) tr.

(** The statements sent to storage by either [Query] or [Exec]. *)
Definition sent (tr : list event) : list string :=
  omap (fun ev => match ev with
                  | EvExec _ s | EvQuery _ s => Some s
                  | _ => None
                  end) tr.

(** The handle an event went to, for the events that go to storage. *)
Definition eventConn (ev : event) : option conn :=
  match ev with
  | EvQuery c _ | EvExec c _ => Some c
  | EvRowsClose | EvInfof _ => None
  end.

(** The events a run adds to the trace it starts from. *)
Definition added (e : QueryExecution) (tr : list event) : list event :=
  drop (length tr) (handleQueryExecution e tr).2.

End QueryExecution.

(** *** A storage to run the function against

    Handles are numbered; every [Query] answers a one-line plan and
    every [Exec] reports one affected row. *)
Definition planStorage : @Storage nat nat nat := {|
  onQuery := fun _ _ _ => inr [inr "Insert on t  (cost=0.00..0.01 rows=1 width=4)"];
  onExec := fun _ _ _ => (Some 1%nat, None)
|}.

(** A storage that refuses every [Query], and one whose second row
    cannot be scanned. *)
Definition refusingStorage : @Storage nat nat nat := {|
  onQuery := fun _ _ _ => inl (ErrNew "syntax error");
  onExec := fun _ _ _ => (Some 1%nat, None)
|}.

Definition brokenRowsStorage : @Storage nat nat nat := {|
  onQuery := fun _ _ _ => inr [inr "Seq Scan on t"; inl (ErrNew "scan failed"); inr "unread"];
  onExec := fun _ _ _ => (Some 1%nat, None)
|}.

Definition showQuery (e : @QueryExecution nat nat) : string := query e.

Definition insertWithPlan : @QueryExecution nat nat :=
  mkQueryExecution (Some 7%nat) None "INSERT INTO t VALUES (1)" true.

Definition insertWithoutPlan : @QueryExecution nat nat :=
  mkQueryExecution (Some 7%nat) None "INSERT INTO t VALUES (1)" false.

End Postgres.

(** * Properties *)

(** ** Machine integers *)

Lemma wrap_in_range (z : Z) : GoInt.in_range z -> GoInt.wrap z = z.
Proof.
  unfold GoInt.in_range, GoInt.min_int, GoInt.max_int, GoInt.wrap. intros Hz.
  rewrite Z.mod_small; lia.
Qed.

Lemma max_int_value : GoInt.max_int = 9223372036854775807.
Proof. reflexivity. Qed.

Lemma min_int_value : GoInt.min_int = -9223372036854775808.
Proof. reflexivity. Qed.

Ltac int_simpl :=
  unfold GoInt.add, GoInt.sub, GoInt.mul;
  rewrite ?wrap_in_range
    by (unfold GoInt.in_range; rewrite max_int_value, min_int_value in *; lia).

(** ** float64 comparisons *)

Lemma SFcompare_antisym (x y : spec_float) :
  SFcompare y x = option_map CompOpp (SFcompare x y).
Proof.
  destruct x as [sx|sx| |sx mx ex], y as [sy|sy| |sy my ey]; simpl;
    try destruct sx; try destruct sy; try reflexivity;
    rewrite (Z.compare_antisym ey ex); destruct (ey ?= ex); simpl; try reflexivity;
    assert (Hm : Pos.compare_cont Eq my mx = CompOpp (Pos.compare_cont Eq mx my))
      by (symmetry; exact (Pos.compare_cont_antisym mx my Eq));
    rewrite Hm; by destruct (Pos.compare_cont Eq mx my).
Qed.

(** Not above 1 and comparable means at most 1. *)
Lemma not_above_one_le (t f : spec_float) :
  SFltb t f = true -> SFltb float_one f = false -> SFleb f float_one = true.
Proof.
  unfold SFltb, SFleb. rewrite (SFcompare_antisym float_one f).
  destruct (SFcompare float_one f) as [[]|] eqn:Hc; simpl; try done.
  (* [f] is not comparable with 1: it is a NaN, which nothing is below *)
  intros Ht _. destruct f as [s|s| |s m e], t; simpl in *; try done.
  all: try (destruct s; done).
Qed.

(** Above a positive threshold means non-negative. *)
Lemma above_positive_nonneg (t f : spec_float) :
  SFltb float_zero t = true -> SFltb t f = true -> SFleb float_zero f = true.
Proof.
  unfold SFltb, SFleb, float_zero.
  destruct t as [st|st| |st mt et], f as [sf|sf| |sf mf ef]; simpl;
    try destruct st; try destruct sf; simpl; try done.
Qed.

(** ** The counter cache *)

Section CounterManagerFacts.
Import EventSchema.
Context `{ops : CounterOps}.

Implicit Types (m : gmap string FrequencyCounter).
Implicit Types (c : gmap string (gmap string FrequencyCounter)).
Implicit Types (kvs : list (string * FrequencyCounter)).

Lemma len_nonneg m : 0 <= len m.
Proof. unfold len. lia. Qed.

Lemma len_empty : len (∅ : gmap string FrequencyCounter) = 0.
Proof. unfold len. by rewrite map_size_empty. Qed.

(** What [range] yields: distinct keys, all of the map, as many as the
    map has entries. *)
Lemma range_NoDup rangeOrder m :
  range_order rangeOrder -> NoDup (range rangeOrder m).*1.
Proof.
  intros Hp. unfold range. rewrite (Hp (map_to_list m)).
  apply NoDup_fst_map_to_list.
Qed.

Lemma range_lookup rangeOrder m k v :
  range_order rangeOrder -> (k, v) ∈ range rangeOrder m <-> m !! k = Some v.
Proof.
  intros Hp. unfold range. rewrite (Hp (map_to_list m)).
  apply elem_of_map_to_list.
Qed.

Lemma range_length rangeOrder m :
  range_order rangeOrder -> Z.of_nat (length (range rangeOrder m)) = len m.
Proof.
  intros Hp. unfold range, len. rewrite (Hp (map_to_list m)).
  by rewrite length_map_to_list.
Qed.

(** The trimming loop only removes entries. *)
Lemma trimLoop_subseteq kvs m n : trimLoop kvs m n ⊆ m.
Proof.
  revert m n. induction kvs as [|[k v] rest IH]; intros m n; simpl; [done|].
  destruct (0 <? n); [|done].
  etrans; [apply IH|apply delete_subseteq].
Qed.

(** It removes one entry per key visited, until [toDelete] are gone. *)
Lemma trimLoop_len kvs m n :
  NoDup kvs.*1 ->
  (forall k, k ∈ kvs.*1 -> is_Some (m !! k)) ->
  0 <= n <= Z.of_nat (length kvs) -> n <= GoInt.max_int ->
  len (trimLoop kvs m n) = len m - n.
Proof.
  revert m n. induction kvs as [|[k v] rest IH]; intros m n Hnd Hin Hn Hmax; simpl in *.
  - lia.
  - destruct (0 <? n) eqn:Hpos; [|apply Z.ltb_ge in Hpos; lia].
    apply Z.ltb_lt in Hpos. inversion Hnd as [|? ? Hk Hnd']; subst.
    assert (Hsz : len (delete k m) = len m - 1).
    { unfold len. rewrite map_size_delete_Some by (apply Hin; left).
      assert (size m <> 0%nat); [|lia].
      intros ->%map_size_empty_inv. destruct (Hin k) as [? Hl]; [left|].
      by rewrite lookup_empty in Hl. }
    int_simpl. rewrite IH; [lia|done| |lia|lia].
    intros k' Hk'. rewrite lookup_delete_ne by (intros ->; done).
    apply Hin. by right.
Qed.

Lemma trimLoop_range_len rangeOrder m n :
  range_order rangeOrder -> 0 <= n <= len m -> n <= GoInt.max_int ->
  len (trimLoop (range rangeOrder m) m n) = len m - n.
Proof.
  intros Hp Hn Hmax. apply trimLoop_len; [by apply range_NoDup| |by rewrite range_length|done].
  intros k [[k' v] [-> Hkv]]%list_elem_of_fmap. simpl.
  apply (range_lookup _ _ _ _ Hp) in Hkv. by eexists.
Qed.

Lemma bucketOf_insert c schemaHash m : bucketOf (<[schemaHash := m]> c) schemaHash = m.
Proof. unfold bucketOf. by rewrite lookup_insert_eq. Qed.

(** The body of [getFrequencyCounterBounded], read on the bucket of
    [schemaHash]: the three branches on the sign of [diff]. *)
Lemma getFrequencyCounterBounded_unfold rangeOrder c schemaHash key bound :
  getFrequencyCounterBounded rangeOrder c schemaHash key bound =
    let m := bucketOf c schemaHash in
    let diff := GoInt.sub bound (len m) in
    if diff =? 0 then (<[schemaHash := m]> c, m !! key)
    else if diff <? 0 then
      let trimmed := trimLoop (range rangeOrder m) m (GoInt.mul (-1) diff) in
      (<[schemaHash := trimmed]> c, trimmed !! key)
    else match m !! key with
         | Some fc => (<[schemaHash := m]> c, Some fc)
         | None => (<[schemaHash := <[key := NewFrequencyCounter key]> m]> c,
                    Some (NewFrequencyCounter key))
         end.
Proof.
  unfold getFrequencyCounterBounded, bucketOf.
  destruct (c !! schemaHash) as [m|] eqn:Hc; simpl.
  - rewrite (insert_id c schemaHash m Hc). reflexivity.
  - rewrite !insert_insert_eq. reflexivity.
Qed.

(** The three branches, by the size of the bucket. *)
Lemma get_at_bound rangeOrder c schemaHash key bound :
  len (bucketOf c schemaHash) = bound ->
  getFrequencyCounterBounded rangeOrder c schemaHash key bound =
    (<[schemaHash := bucketOf c schemaHash]> c, bucketOf c schemaHash !! key).
Proof.
  intros <-. rewrite getFrequencyCounterBounded_unfold. simpl.
  unfold GoInt.sub. by rewrite Z.sub_diag.
Qed.

Lemma get_above_bound rangeOrder c schemaHash key bound :
  0 <= bound < len (bucketOf c schemaHash) ->
  len (bucketOf c schemaHash) <= GoInt.max_int ->
  getFrequencyCounterBounded rangeOrder c schemaHash key bound =
    let m := bucketOf c schemaHash in
    let trimmed := trimLoop (range rangeOrder m) m (len m - bound) in
    (<[schemaHash := trimmed]> c, trimmed !! key).
Proof.
  intros Hb Hmax. rewrite getFrequencyCounterBounded_unfold. simpl.
  int_simpl.
  destruct (_ - _ =? 0) eqn:H0; [apply Z.eqb_eq in H0; lia|].
  destruct (_ - _ <? 0) eqn:H1; [|apply Z.ltb_ge in H1; lia].
  do 3 f_equal; lia.
Qed.

Lemma get_below_bound rangeOrder c schemaHash key bound :
  len (bucketOf c schemaHash) < bound <= GoInt.max_int ->
  getFrequencyCounterBounded rangeOrder c schemaHash key bound =
    let m := bucketOf c schemaHash in
    match m !! key with
    | Some fc => (<[schemaHash := m]> c, Some fc)
    | None => (<[schemaHash := <[key := NewFrequencyCounter key]> m]> c,
               Some (NewFrequencyCounter key))
    end.
Proof.
  intros Hb. rewrite getFrequencyCounterBounded_unfold. simpl.
  pose proof (len_nonneg (bucketOf c schemaHash)).
  int_simpl.
  destruct (_ - _ =? 0) eqn:H0; [apply Z.eqb_eq in H0; lia|].
  destruct (_ - _ <? 0) eqn:H1; [apply Z.ltb_lt in H1; lia|].
  reflexivity.
Qed.

(** The loop of the reload keeps the first [bound - count] counters. *)
Lemma populateLoop_foldl frequencyCounters bound count m :
  0 <= count -> bound <= GoInt.max_int ->
  populateLoop frequencyCounters bound count m =
    foldl (fun m fc => <[Name fc := NewPeristedFrequencyCounter fc]> m) m
          (take (Z.to_nat (bound - count)) frequencyCounters).
Proof.
  revert count m. induction frequencyCounters as [|fc rest IH]; intros count m Hc Hb; simpl.
  - by rewrite take_nil.
  - destruct (bound <=? count) eqn:Hle.
    + apply Z.leb_le in Hle. by replace (Z.to_nat (bound - count)) with 0%nat by lia.
    + apply Z.leb_gt in Hle. int_simpl.
      replace (Z.to_nat (bound - count)) with (S (Z.to_nat (bound - (count + 1)))) by lia.
      simpl. apply IH; lia.
Qed.

Lemma populate_truncated c schemaHash frequencyCounters bound :
  bound <= GoInt.max_int ->
  populateFrequencyCountersBounded c schemaHash frequencyCounters bound =
    <[schemaHash := truncatedBucket frequencyCounters bound]> c.
Proof.
  intros Hb. unfold populateFrequencyCountersBounded, truncatedBucket.
  rewrite populateLoop_foldl by (done || lia). by rewrite Z.sub_0_r.
Qed.

Lemma foldl_insert_len (l : list FrequencyCounter) m :
  len (foldl (fun m fc => <[Name fc := NewPeristedFrequencyCounter fc]> m) m l)
    <= len m + Z.of_nat (length l).
Proof.
  revert m. induction l as [|fc l IH]; intros m; simpl; [lia|].
  etrans; [apply IH|]. unfold len. rewrite map_size_insert.
  destruct (m !! Name fc); simpl; lia.
Qed.

Lemma truncatedBucket_len frequencyCounters bound :
  0 <= bound -> len (truncatedBucket frequencyCounters bound) <= bound.
Proof.
  intros Hb. unfold truncatedBucket. etrans; [apply foldl_insert_len|].
  rewrite len_empty, length_take. lia.
Qed.

(** C1 (as amended). For every schema hash, field key and bound [b] with
    [0 <= b], right after [getFrequencyCounterBounded schemaHash key b],
    and right after [populateFrequencyCountersBounded schemaHash counters b],
    the bucket of [schemaHash] holds at most [b] counters; this covers the
    call that finds the bucket larger than [b] and trims it. The bound and
    the size of the bucket are values of Go's [int]. *)
Theorem bucket_within_nonneg_bound rangeOrder c schemaHash key frequencyCounters bound :
  range_order rangeOrder ->
  0 <= bound <= GoInt.max_int ->
  len (bucketOf c schemaHash) <= GoInt.max_int ->
  len (bucketOf (getFrequencyCounterBounded rangeOrder c schemaHash key bound).1 schemaHash)
    <= bound
  /\ len (bucketOf (populateFrequencyCountersBounded c schemaHash frequencyCounters bound)
            schemaHash) <= bound.
Proof.
  intros Hp Hb Hmax. split.
  - destruct (Z.lt_total (len (bucketOf c schemaHash)) bound) as [Hlt|[Heq|Hgt]].
    + rewrite get_below_bound by lia. simpl.
      destruct (bucketOf c schemaHash !! key) eqn:Hk; simpl; rewrite bucketOf_insert; [lia|].
      unfold len in *. rewrite map_size_insert_None by done. lia.
    + rewrite get_at_bound by done. simpl. rewrite bucketOf_insert. lia.
    + rewrite get_above_bound by lia. simpl. rewrite bucketOf_insert.
      pose proof (len_nonneg (bucketOf c schemaHash)).
      rewrite trimLoop_range_len by (done || lia). lia.
  - rewrite populate_truncated by lia. rewrite bucketOf_insert.
    apply truncatedBucket_len; lia.
Qed.

(** C3 (as amended). If the bucket of the schema hash holds a counter
    for the field key and the bucket size is below or equal to the bound,
    [getFrequencyCounterBounded] returns exactly that counter and leaves
    the cache as it was. *)
Theorem existing_counter_returned_within_bound rangeOrder c schemaHash key bound m fc :
  c !! schemaHash = Some m ->
  m !! key = Some fc ->
  len m <= bound <= GoInt.max_int ->
  getFrequencyCounterBounded rangeOrder c schemaHash key bound = (c, Some fc).
Proof.
  intros Hc Hk Hb.
  assert (Hm : bucketOf c schemaHash = m) by (unfold bucketOf; by rewrite Hc).
  destruct (Z.eq_dec (len m) bound) as [Heq|Hne].
  - rewrite get_at_bound by (by rewrite Hm). rewrite Hm, Hk. by rewrite insert_id.
  - rewrite get_below_bound by (rewrite Hm; lia). simpl. rewrite Hm, Hk.
    by rewrite insert_id.
Qed.

(** C4 (as amended). Called with a bound [0 <= bound] on a bucket of
    strictly larger size, [getFrequencyCounterBounded] removes exactly
    [size - bound] entries: the bucket afterwards is a part of the
    earlier one with exactly [bound] entries; and it returns the lookup
    of the field in the trimmed bucket. *)
Theorem oversize_bucket_trimmed_to_bound rangeOrder c schemaHash key bound :
  range_order rangeOrder ->
  0 <= bound < len (bucketOf c schemaHash) ->
  len (bucketOf c schemaHash) <= GoInt.max_int ->
  let after := getFrequencyCounterBounded rangeOrder c schemaHash key bound in
  let trimmed := bucketOf after.1 schemaHash in
  trimmed ⊆ bucketOf c schemaHash
  /\ len (bucketOf c schemaHash) - len trimmed = len (bucketOf c schemaHash) - bound
  /\ len trimmed = bound
  /\ after.2 = trimmed !! key.
Proof.
  intros Hp Hb Hmax. simpl. rewrite get_above_bound by lia. simpl.
  rewrite bucketOf_insert.
  rewrite trimLoop_range_len by (done || lia).
  split; [apply trimLoop_subseteq|]. repeat split; lia.
Qed.

(** C5. Called on a bucket whose size equals the bound,
    [getFrequencyCounterBounded] inserts nothing and evicts nothing: the
    bucket is as it was, a cache that had the bucket is unchanged, and
    the result is the counter of the field if the bucket has one, none
    otherwise. *)
Theorem full_bucket_left_as_is rangeOrder c schemaHash key bound :
  len (bucketOf c schemaHash) = bound ->
  let after := getFrequencyCounterBounded rangeOrder c schemaHash key bound in
  bucketOf after.1 schemaHash = bucketOf c schemaHash
  /\ after.2 = bucketOf c schemaHash !! key
  /\ (is_Some (c !! schemaHash) -> after.1 = c).
Proof.
  intros Hb. simpl. rewrite get_at_bound by done. simpl.
  rewrite bucketOf_insert. repeat split.
  intros [m Hm]. unfold bucketOf. rewrite Hm. simpl. by apply insert_id.
Qed.

Lemma foldl_insert_lookup (l : list FrequencyCounter) m k v :
  foldl (fun m fc => <[Name fc := NewPeristedFrequencyCounter fc]> m) m l !! k = Some v ->
  m !! k = Some v \/
  exists fc, fc ∈ l /\ Name fc = k /\ v = NewPeristedFrequencyCounter fc.
Proof.
  revert m. induction l as [|fc l IH]; intros m; simpl; [by left|].
  intros [Hm|(fc' & Hin & Hn & Hv)]%IH.
  - destruct (decide (Name fc = k)) as [Heq|Hne].
    + right. exists fc. rewrite Heq, lookup_insert_eq in Hm.
      split; [left|]. split; congruence.
    + left. by rewrite lookup_insert_ne in Hm.
  - right. exists fc'. split; [by right|done].
Qed.

(** C6. [populateFrequencyCountersBounded] replaces the whole bucket of
    the schema hash: whatever the cache held for that hash before, the
    new bucket is the one built from the first [bound] counters of the
    list, in list order, and nothing else; each of its counters is a
    persisted counter of that prefix, wrapped by the persisted-counter
    constructor and filed under its name; it has at most as many
    counters as the prefix. *)
Theorem populate_replaces_bucket c schemaHash frequencyCounters bound :
  GoInt.in_range bound ->
  let prefix := take (Z.to_nat bound) frequencyCounters in
  let after := populateFrequencyCountersBounded c schemaHash frequencyCounters bound in
  after !! schemaHash = Some (truncatedBucket frequencyCounters bound)
  /\ (forall old,
        populateFrequencyCountersBounded (<[schemaHash := old]> c) schemaHash
          frequencyCounters bound = after)
  /\ (forall k v, bucketOf after schemaHash !! k = Some v ->
        exists fc, fc ∈ prefix /\ Name fc = k /\ v = NewPeristedFrequencyCounter fc)
  /\ (size (bucketOf after schemaHash) <= length prefix)%nat.
Proof.
  intros [_ Hb]. simpl. rewrite populate_truncated by done.
  rewrite bucketOf_insert, lookup_insert_eq. split; [done|]. split; [|split].
  - intros old. rewrite populate_truncated by done. by rewrite insert_insert_eq.
  - intros k v Hkv. unfold truncatedBucket in Hkv.
    apply foldl_insert_lookup in Hkv as [Hkv|Hkv]; [by rewrite lookup_empty in Hkv|done].
  - pose proof (foldl_insert_len (take (Z.to_nat bound) frequencyCounters) ∅) as Hlen.
    rewrite len_empty in Hlen. unfold truncatedBucket, len in *. lia.
Qed.

(** C9. A call of [getFrequencyCounterBounded schemaHash key bound]
    leaves the bucket of every other schema hash as it was; after the
    call the cache has a bucket for [schemaHash]; with no bucket before
    and bound zero an empty bucket is created and no counter returned. *)
Theorem other_buckets_untouched rangeOrder c schemaHash key bound :
  let after := getFrequencyCounterBounded rangeOrder c schemaHash key bound in
  (forall other, other <> schemaHash -> after.1 !! other = c !! other)
  /\ is_Some (after.1 !! schemaHash)
  /\ (c !! schemaHash = None -> bound = 0 ->
      after.1 = <[schemaHash := ∅]> c /\ after.2 = None).
Proof.
  simpl. split; [|split].
  - intros other Hne. rewrite getFrequencyCounterBounded_unfold. simpl.
    repeat case_match; simpl; by rewrite lookup_insert_ne.
  - rewrite getFrequencyCounterBounded_unfold. simpl.
    repeat case_match; simpl; rewrite lookup_insert_eq; by eexists.
  - intros Hc ->.
    assert (Hm : bucketOf c schemaHash = ∅) by (unfold bucketOf; by rewrite Hc).
    rewrite get_at_bound by (rewrite Hm; apply len_empty).
    by rewrite Hm, lookup_empty.
Qed.

(** *** The scenario of the specification: bound 3, fields A, B, C, D *)

Lemma get_fresh_field rangeOrder c schemaHash key bound :
  len (bucketOf c schemaHash) < bound <= GoInt.max_int ->
  bucketOf c schemaHash !! key = None ->
  let after := getFrequencyCounterBounded rangeOrder c schemaHash key bound in
  after.2 = Some (NewFrequencyCounter key)
  /\ bucketOf after.1 schemaHash = <[key := NewFrequencyCounter key]> (bucketOf c schemaHash)
  /\ len (bucketOf after.1 schemaHash) = len (bucketOf c schemaHash) + 1.
Proof.
  intros Hb Hk. simpl. rewrite get_below_bound by done. simpl. rewrite Hk. simpl.
  rewrite bucketOf_insert. repeat split.
  unfold len. rewrite map_size_insert_None by done. lia.
Qed.

(** C8. From a cache with no bucket for the schema hash and bound 3,
    the calls for fields A, B, C, D in this order create counters for
    exactly A, B and C and return no counter for D, which leaves the
    three tracked fields A, B, C; a later call on the same schema hash
    with bound 2 trims the bucket to exactly 2 of them. *)
Theorem scenario_bound_three_then_two ro1 ro2 ro3 ro4 ro5 c schemaHash key :
  c !! schemaHash = None ->
  range_order ro5 ->
  let s1 := getFrequencyCounterBounded ro1 c schemaHash "A" 3 in
  let s2 := getFrequencyCounterBounded ro2 s1.1 schemaHash "B" 3 in
  let s3 := getFrequencyCounterBounded ro3 s2.1 schemaHash "C" 3 in
  let s4 := getFrequencyCounterBounded ro4 s3.1 schemaHash "D" 3 in
  let s5 := getFrequencyCounterBounded ro5 s4.1 schemaHash key 2 in
  s1.2 = Some (NewFrequencyCounter "A")
  /\ s2.2 = Some (NewFrequencyCounter "B")
  /\ s3.2 = Some (NewFrequencyCounter "C")
  /\ s4.2 = None
  /\ bucketOf s4.1 schemaHash =
       <["C" := NewFrequencyCounter "C"]>
         (<["B" := NewFrequencyCounter "B"]> (<["A" := NewFrequencyCounter "A"]> ∅))
  /\ len (bucketOf s4.1 schemaHash) = 3
  /\ bucketOf s5.1 schemaHash ⊆ bucketOf s4.1 schemaHash
  /\ len (bucketOf s5.1 schemaHash) = 2.
Proof.
  intros Hc Hp. cbv zeta.
  assert (H0 : bucketOf c schemaHash = ∅) by (unfold bucketOf; by rewrite Hc).
  destruct (get_fresh_field ro1 c schemaHash "A" 3) as (HA & HbA & HlA).
  { rewrite H0, len_empty, max_int_value. lia. }
  { by rewrite H0. }
  rewrite H0 in HbA, HlA. rewrite len_empty in HlA.
  set (c1 := (getFrequencyCounterBounded ro1 c schemaHash "A" 3).1) in *.
  destruct (get_fresh_field ro2 c1 schemaHash "B" 3) as (HB & HbB & HlB).
  { rewrite HlA, max_int_value. lia. }
  { rewrite HbA. by rewrite lookup_insert_ne. }
  rewrite HbA in HbB. rewrite HlA in HlB.
  set (c2 := (getFrequencyCounterBounded ro2 c1 schemaHash "B" 3).1) in *.
  destruct (get_fresh_field ro3 c2 schemaHash "C" 3) as (HC & HbC & HlC).
  { rewrite HlB, max_int_value. lia. }
  { rewrite HbB. by rewrite !lookup_insert_ne. }
  rewrite HbB in HbC. rewrite HlB in HlC.
  set (c3 := (getFrequencyCounterBounded ro3 c2 schemaHash "C" 3).1) in *.
  assert (HD : getFrequencyCounterBounded ro4 c3 schemaHash "D" 3 =
               (<[schemaHash := bucketOf c3 schemaHash]> c3, None)).
  { rewrite get_at_bound by done. f_equal.
    rewrite HbC. by rewrite !lookup_insert_ne. }
  rewrite HD. simpl. rewrite bucketOf_insert.
  split; [done|]. split; [done|]. split; [done|]. split; [done|].
  split; [done|]. split; [done|].
  set (c4 := <[schemaHash := bucketOf c3 schemaHash]> c3).
  assert (Hb4 : bucketOf c4 schemaHash = bucketOf c3 schemaHash)
    by apply bucketOf_insert.
  rewrite get_above_bound by (rewrite Hb4, HlC, ?max_int_value; lia).
  simpl. rewrite bucketOf_insert, Hb4. split; [apply trimLoop_subseteq|].
  rewrite trimLoop_range_len by (rewrite ?HlC, ?max_int_value; done || lia).
  lia.
Qed.

(** *** Reportable counters *)

Lemma schemaVersionLoop_notin kvs counters key :
  key ∉ kvs.*1 -> schemaVersionLoop kvs counters !! key = counters !! key.
Proof.
  revert counters. induction kvs as [|[k fc] rest IH]; intros counters Hnotin; simpl; [done|].
  simpl in Hnotin. apply not_elem_of_cons in Hnotin as [Hne Hnotin].
  rewrite IH by done. case_match; [|done]. by rewrite lookup_insert_ne.
Qed.

Lemma schemaVersionLoop_in kvs counters key fc :
  NoDup kvs.*1 -> (key, fc) ∈ kvs ->
  schemaVersionLoop kvs counters !! key =
    match ItemsAboveThreshold fc with
    | [] => counters !! key
    | entries => Some (counterItemsOf entries)
    end.
Proof.
  revert counters. induction kvs as [|[k fc'] rest IH]; intros counters Hnd Hin; simpl.
  - by apply elem_of_nil in Hin.
  - simpl in Hnd. inversion Hnd as [|? ? Hk Hnd']; subst.
    apply elem_of_cons in Hin as [Heq|Hin].
    + injection Heq as <- <-. rewrite schemaVersionLoop_notin by done.
      unfold counterItemsOf. rewrite length_map.
      destruct (ItemsAboveThreshold fc) as [|entry entries]; simpl; [done|].
      by rewrite lookup_insert_eq.
    + rewrite IH by done.
      assert (k <> key).
      { intros ->. apply Hk. apply list_elem_of_fmap. by exists (key, fc). }
      destruct (ItemsAboveThreshold fc); [|done].
      case_match; [|done]. by rewrite lookup_insert_ne.
Qed.

(** What [getSchemaVersionCounters] holds for a field, whatever the
    order of the [range]. *)
Lemma getSchemaVersionCounters_lookup rangeOrder c schemaHash key :
  range_order rangeOrder ->
  getSchemaVersionCounters rangeOrder c schemaHash !! key =
    match bucketOf c schemaHash !! key with
    | Some fc =>
        match ItemsAboveThreshold fc with
        | [] => None
        | entries => Some (counterItemsOf entries)
        end
    | None => None
    end.
Proof.
  intros Hp. unfold getSchemaVersionCounters.
  destruct (bucketOf c schemaHash !! key) as [fc|] eqn:Hk.
  - rewrite (schemaVersionLoop_in _ _ key fc).
    + by destruct (ItemsAboveThreshold fc).
    + by apply range_NoDup.
    + by apply range_lookup.
  - rewrite schemaVersionLoop_notin; [done|].
    intros [[k v] [-> Hkv]]%list_elem_of_fmap. simpl in Hk.
    apply (range_lookup _ _ _ _ Hp) in Hkv. congruence.
Qed.

Lemma capEntry_in_unit_interval threshold entry :
  SFltb float_zero threshold = true ->
  SFltb threshold (Entry.Frequency entry) = true ->
  SFleb float_zero (Frequency (capEntry entry)) = true
  /\ SFleb (Frequency (capEntry entry)) float_one = true.
Proof.
  intros Ht Hf. unfold capEntry. simpl.
  destruct (SFltb float_one (Entry.Frequency entry)) eqn:Habove.
  - by vm_compute.
  - split; [by eapply above_positive_nonneg|by eapply not_above_one_le].
Qed.

(** C7. Every [CounterItem] of the map [getSchemaVersionCounters]
    returns has its frequency in [0,1]: it is the frequency of the entry
    the counter reported, replaced by exactly 1.0 when that is above 1.
    A field key is in the map only if the bucket has a counter for it
    whose list of items above the threshold is not empty (and then it is
    in the map). The counters report what the specification says:
    entries above a threshold in (0,1). *)
Theorem reported_frequencies_capped rangeOrder c schemaHash threshold key items :
  range_order rangeOrder ->
  reports_above threshold ->
  getSchemaVersionCounters rangeOrder c schemaHash !! key = Some items ->
  (exists fc,
      bucketOf c schemaHash !! key = Some fc
      /\ ItemsAboveThreshold fc <> []
      /\ items = map (fun entry =>
                        {| Value := Entry.Key entry;
                           Frequency := if SFltb float_one (Entry.Frequency entry)
                                        then float_one else Entry.Frequency entry |})
                     (ItemsAboveThreshold fc))
  /\ items <> []
  /\ (forall item, item ∈ items ->
        SFleb float_zero (Frequency item) = true
        /\ SFleb (Frequency item) float_one = true).
Proof.
  intros Hp (Ht0 & Ht1 & Habove) Hlookup.
  rewrite getSchemaVersionCounters_lookup in Hlookup by done.
  destruct (bucketOf c schemaHash !! key) as [fc|] eqn:Hk; [|done].
  destruct (ItemsAboveThreshold fc) as [|entry entries] eqn:Hitems; [done|].
  injection Hlookup as <-. split; [|split].
  - exists fc. by rewrite Hitems.
  - done.
  - intros item Hitem.
    change (item ∈ capEntry <$> (entry :: entries)) in Hitem.
    apply list_elem_of_fmap in Hitem as [e [-> He]].
    apply (capEntry_in_unit_interval threshold); [done|].
    apply (Habove fc). by rewrite Hitems.
Qed.

(** The converse: a field whose counter reports at least one entry is
    in the returned map. *)
Lemma reported_when_nonempty rangeOrder c schemaHash key fc :
  range_order rangeOrder ->
  bucketOf c schemaHash !! key = Some fc ->
  ItemsAboveThreshold fc <> [] ->
  getSchemaVersionCounters rangeOrder c schemaHash !! key =
    Some (counterItemsOf (ItemsAboveThreshold fc)).
Proof.
  intros Hp Hk Hne. rewrite getSchemaVersionCounters_lookup by done. rewrite Hk.
  by destruct (ItemsAboveThreshold fc).
Qed.

End CounterManagerFacts.

(** *** The claims at concrete inputs *)

Section TallyRuns.
Import EventSchema.

Lemma range_order_id {V : Type} : range_order (fun kvs : list (string * V) => kvs).
Proof. by intros kvs. Qed.

Lemma range_order_reverse {V : Type} : range_order (@reverse (string * V)).
Proof. intros kvs. apply reverse_Permutation. Qed.

Lemma tally_reports_above : reports_above (ops := tallyOps) float_half.
Proof.
  split; [by vm_compute|]. split; [by vm_compute|].
  intros fc entry Hin. simpl in Hin.
  apply list_elem_of_In, filter_In in Hin. apply Hin.
Qed.

(** C1, as stated, fails for a negative bound: the bucket is empty
    after either call, and 0 is not at most -1. *)
Lemma bound_invariant_fails_below_zero :
  ~ (len (bucketOf (ops := tallyOps)
            (getFrequencyCounterBounded (ops := tallyOps) (fun kvs => kvs)
               ∅ "hash" "A" (-1)).1 "hash") <= -1)
  /\ ~ (len (bucketOf (ops := tallyOps)
              (populateFrequencyCountersBounded (ops := tallyOps)
                 ∅ "hash" [tallyA] (-1)) "hash") <= -1).
Proof. split; vm_compute; intros H; by apply H. Qed.

Lemma bucket_within_nonneg_bound_witness :
  len (bucketOf (ops := tallyOps)
         (getFrequencyCounterBounded (ops := tallyOps) reverse
            tallyCache "hash" "D" 2).1 "hash") <= 2
  /\ len (bucketOf (ops := tallyOps)
            (populateFrequencyCountersBounded (ops := tallyOps)
               tallyCache "hash" [tallyC; tallyB; tallyA] 2) "hash") <= 2.
Proof.
  apply (bucket_within_nonneg_bound (ops := tallyOps)).
  - apply range_order_reverse.
  - rewrite max_int_value. lia.
  - by vm_compute.
Defined.

(** C3, as stated, fails above the bound: field A has a counter, the
    bound is 0, and the call evicts that very counter and returns nil. *)
Lemma existing_counter_evicted_above_bound :
  let c : gmap string (gmap string tally) := {[ "hash" := {[ "A" := tallyA ]} ]} in
  c !! "hash" = Some {[ "A" := tallyA ]}
  /\ ({[ "A" := tallyA ]} : gmap string tally) !! "A" = Some tallyA
  /\ (getFrequencyCounterBounded (ops := tallyOps) (fun kvs => kvs) c "hash" "A" 0).2
     = None
  /\ bucketOf (ops := tallyOps)
       (getFrequencyCounterBounded (ops := tallyOps) (fun kvs => kvs) c "hash" "A" 0).1
       "hash" !! "A" = None.
Proof. by vm_compute. Qed.

Lemma existing_counter_returned_within_bound_witness :
  getFrequencyCounterBounded (ops := tallyOps) reverse tallyCache "hash" "B" 3
  = (tallyCache, Some tallyB).
Proof.
  apply (existing_counter_returned_within_bound (ops := tallyOps) reverse tallyCache
           "hash" "B" 3 {[ "A" := tallyA; "B" := tallyB; "C" := tallyC ]} tallyB).
  - reflexivity.
  - reflexivity.
  - rewrite max_int_value. vm_compute. split; discriminate.
Defined.

(** C4, as stated, fails for a negative bound: a bucket of size 1 is
    larger than the bound -1, the call removes 1 entry, not 1 - (-1),
    and leaves 0 entries, not -1. *)
Lemma oversize_trim_fails_below_zero :
  let c : gmap string (gmap string tally) := {[ "hash" := {[ "A" := tallyA ]} ]} in
  let after := getFrequencyCounterBounded (ops := tallyOps) (fun kvs => kvs) c "hash" "A" (-1) in
  -1 < len (bucketOf (ops := tallyOps) c "hash")
  /\ len (bucketOf (ops := tallyOps) after.1 "hash") <> -1
  /\ len (bucketOf (ops := tallyOps) c "hash") - len (bucketOf (ops := tallyOps) after.1 "hash")
     <> len (bucketOf (ops := tallyOps) c "hash") - -1.
Proof. by vm_compute. Qed.

Lemma oversize_bucket_trimmed_to_bound_witness :
  let after := getFrequencyCounterBounded (ops := tallyOps) reverse tallyCache "hash" "C" 1 in
  let trimmed := bucketOf (ops := tallyOps) after.1 "hash" in
  trimmed ⊆ bucketOf (ops := tallyOps) tallyCache "hash"
  /\ len (bucketOf (ops := tallyOps) tallyCache "hash") - len trimmed
     = len (bucketOf (ops := tallyOps) tallyCache "hash") - 1
  /\ len trimmed = 1
  /\ after.2 = trimmed !! "C".
Proof.
  apply (oversize_bucket_trimmed_to_bound (ops := tallyOps) reverse tallyCache "hash" "C" 1).
  - apply range_order_reverse.
  - by vm_compute.
  - by vm_compute.
Defined.

(** Which entries go is the runtime's choice: two orders of the same
    [range], two different survivors. *)
Lemma trim_depends_on_order :
  (getFrequencyCounterBounded (ops := tallyOps) (fun kvs => kvs) tallyCache "hash" "C" 1).2
  <> (getFrequencyCounterBounded (ops := tallyOps) reverse tallyCache "hash" "C" 1).2.
Proof. by vm_compute. Qed.

Lemma full_bucket_left_as_is_witness :
  let after := getFrequencyCounterBounded (ops := tallyOps) reverse tallyCache "hash" "D" 3 in
  bucketOf (ops := tallyOps) after.1 "hash" = bucketOf (ops := tallyOps) tallyCache "hash"
  /\ after.2 = bucketOf (ops := tallyOps) tallyCache "hash" !! "D"
  /\ (is_Some (tallyCache !! "hash") -> after.1 = tallyCache).
Proof.
  apply (full_bucket_left_as_is (ops := tallyOps) reverse tallyCache "hash" "D" 3).
  reflexivity.
Defined.

Lemma populate_replaces_bucket_witness :
  let prefix := take (Z.to_nat 2) [tallyC; tallyC; tallyA] in
  let after := populateFrequencyCountersBounded (ops := tallyOps)
                 tallyCache "hash" [tallyC; tallyC; tallyA] 2 in
  after !! "hash" = Some (truncatedBucket (ops := tallyOps) [tallyC; tallyC; tallyA] 2)
  /\ (forall old,
        populateFrequencyCountersBounded (ops := tallyOps) (<["hash" := old]> tallyCache)
          "hash" [tallyC; tallyC; tallyA] 2 = after)
  /\ (forall k v, bucketOf (ops := tallyOps) after "hash" !! k = Some v ->
        exists fc, fc ∈ prefix /\ tallyName fc = k
                   /\ v = NewPeristedFrequencyCounter (CounterOps := tallyOps) fc)
  /\ (size (bucketOf (ops := tallyOps) after "hash") <= length prefix)%nat.
Proof.
  apply (populate_replaces_bucket (ops := tallyOps) tallyCache "hash"
           [tallyC; tallyC; tallyA] 2).
  unfold GoInt.in_range. rewrite min_int_value, max_int_value. lia.
Defined.

Lemma scenario_bound_three_then_two_witness :
  let c : gmap string (gmap string tally) := {[ "other" := {[ "A" := tallyA ]} ]} in
  let s1 := getFrequencyCounterBounded (ops := tallyOps) reverse c "hash" "A" 3 in
  let s2 := getFrequencyCounterBounded (ops := tallyOps) reverse s1.1 "hash" "B" 3 in
  let s3 := getFrequencyCounterBounded (ops := tallyOps) reverse s2.1 "hash" "C" 3 in
  let s4 := getFrequencyCounterBounded (ops := tallyOps) reverse s3.1 "hash" "D" 3 in
  let s5 := getFrequencyCounterBounded (ops := tallyOps) reverse s4.1 "hash" "D" 2 in
  s1.2 = Some (mkTally "A" [])
  /\ s2.2 = Some (mkTally "B" [])
  /\ s3.2 = Some (mkTally "C" [])
  /\ s4.2 = None
  /\ bucketOf (ops := tallyOps) s4.1 "hash" =
       <["C" := mkTally "C" []]> (<["B" := mkTally "B" []]> (<["A" := mkTally "A" []]> ∅))
  /\ len (bucketOf (ops := tallyOps) s4.1 "hash") = 3
  /\ bucketOf (ops := tallyOps) s5.1 "hash" ⊆ bucketOf (ops := tallyOps) s4.1 "hash"
  /\ len (bucketOf (ops := tallyOps) s5.1 "hash") = 2.
Proof.
  apply (scenario_bound_three_then_two (ops := tallyOps) reverse reverse reverse reverse
           reverse {[ "other" := {[ "A" := tallyA ]} ]} "hash" "D").
  - reflexivity.
  - apply range_order_reverse.
Defined.

Lemma reported_frequencies_capped_witness :
  let items := [mkCounterItem "red" float_one; mkCounterItem "blue" float_one] in
  getSchemaVersionCounters (ops := tallyOps) reverse tallyCache "hash" !! "A" = Some items
  /\ (exists fc,
        bucketOf (ops := tallyOps) tallyCache "hash" !! "A" = Some fc
        /\ ItemsAboveThreshold (CounterOps := tallyOps) fc <> []
        /\ items = map (fun entry =>
                          {| Value := Entry.Key entry;
                             Frequency := if SFltb float_one (Entry.Frequency entry)
                                          then float_one else Entry.Frequency entry |})
                       (ItemsAboveThreshold (CounterOps := tallyOps) fc))
  /\ items <> []
  /\ (forall item, item ∈ items ->
        SFleb float_zero (Frequency item) = true
        /\ SFleb (Frequency item) float_one = true).
Proof.
  split; [by vm_compute|].
  apply (reported_frequencies_capped (ops := tallyOps) reverse tallyCache "hash"
           float_half "A").
  - apply range_order_reverse.
  - apply tally_reports_above.
  - by vm_compute.
Defined.

Lemma other_buckets_untouched_witness :
  let c : gmap string (gmap string tally) := {[ "other" := {[ "A" := tallyA ]} ]} in
  let after := getFrequencyCounterBounded (ops := tallyOps) reverse c "hash" "A" 0 in
  (forall other, other <> "hash" -> after.1 !! other = c !! other)
  /\ is_Some (after.1 !! "hash")
  /\ (c !! "hash" = None -> 0 = 0 -> after.1 = <["hash" := ∅]> c /\ after.2 = None).
Proof.
  apply (other_buckets_untouched (ops := tallyOps) reverse
           {[ "other" := {[ "A" := tallyA ]} ]} "hash" "A" 0).
Defined.

End TallyRuns.

(** ** The query execution helper *)

Section QueryExecutionFacts.
Import Postgres.
Context {Tx DB Result : Type}.
Context (storage : @Storage Tx DB Result).
Context (fmtQueryExecution : @QueryExecution Tx DB -> string).

Implicit Types (e : @QueryExecution Tx DB) (c : @conn Tx DB) (tr : list (@event Tx DB)).

Lemma string_length_append (s1 s2 : string) :
  String.length (s1 +:+ s2) = (String.length s1 + String.length s2)%nat.
Proof.
  induction s1 as [|a s1 IH]; [reflexivity|]. exact (f_equal S IH).
Qed.

Lemma explain_differs (q : string) : "EXPLAIN " +:+ q <> q.
Proof.
  intros Heq. apply (f_equal String.length) in Heq.
  rewrite string_length_append in Heq. simpl in Heq. lia.
Qed.

Lemma executed_app tr tr' : executed (tr ++ tr') = executed tr ++ executed tr'.
Proof. unfold executed. apply omap_app. Qed.

(** Flag off: one [Exec] of the query, on the handle in use. *)
Lemma run_without_plan e c tr :
  handleOf e = Some c -> enableWithQueryPlan e = false ->
  handleQueryExecution storage fmtQueryExecution e tr =
    (onExec storage tr c (query e), tr ++ [EvExec c (query e)]).
Proof.
  intros Hc Hflag. unfold handleQueryExecution, execStatement. by rewrite Hflag, Hc.
Qed.

(** Flag on, plan read without error: the statement sent through [Exec]
    is the statement sent through [Query], the one that starts with
    EXPLAIN. *)
Lemma run_with_plan e c tr rows response :
  handleOf e = Some c -> enableWithQueryPlan e = true ->
  onQuery storage tr c ("EXPLAIN " +:+ query e) = inr rows ->
  scanRows rows [] = inr response ->
  let sqlStatement := "EXPLAIN " +:+ query e in
  let tr' := tr ++ [EvQuery c sqlStatement] ++ [EvInfof (planMessage sqlStatement response)] in
  handleQueryExecution storage fmtQueryExecution e tr =
    (onExec storage tr' c sqlStatement, (tr' ++ [EvExec c sqlStatement]) ++ [EvRowsClose]).
Proof.
  intros Hc Hflag Hq Hscan. simpl.
  unfold handleQueryExecution, execStatement, bind, Query, Exec, emit, ret.
  rewrite Hflag, Hc, Hq, Hscan. by rewrite <- !app_assoc.
Qed.

(** Flag on: whatever storage answers, the query itself never goes
    through [Exec]. *)
Lemma plan_flag_never_executes_query e tr :
  enableWithQueryPlan e = true ->
  query e ∉ executed (handleQueryExecution storage fmtQueryExecution e tr).2
  \/ query e ∈ executed tr.
Proof.
  intros Hflag.
  unfold handleQueryExecution, execStatement, bind, Query, Exec, emit, ret.
  rewrite Hflag. destruct (decide (query e ∈ executed tr)) as [Hin|Hnotin]; [by right|left].
  pose proof (explain_differs (query e)) as Hne.
  destruct (handleOf e) as [c|]; simpl; [|done].
  destruct (onQuery _ _ _ _) as [err|rows]; simpl.
  { rewrite executed_app. simpl. by rewrite app_nil_r. }
  destruct (scanRows rows []) as [err|response]; simpl.
  - rewrite !executed_app. simpl. by rewrite !app_nil_r.
  - rewrite !executed_app. simpl. rewrite !app_nil_r.
    rewrite not_elem_of_app. split; [done|].
    apply not_elem_of_cons. split; [done|apply not_elem_of_nil].
Qed.

(** C10. With both the transaction handle and the pooled handle nil,
    [handleQueryExecution] returns a nil result and a non-nil error, for
    every query and either value of [enableWithQueryPlan], and nothing is
    sent to storage: the trace of events is as before. *)
Theorem no_handle_is_an_error (q : string) (flag : bool) tr :
  let e := mkQueryExecution None None q flag in
  exists err,
    handleQueryExecution storage fmtQueryExecution e tr = ((None, Some err), tr)
    /\ err = errNoHandle (if flag then "EXPLAIN " +:+ q else q).
Proof.
  simpl. exists (errNoHandle (if flag then "EXPLAIN " +:+ q else q)).
  split; [by destruct flag|done].
Qed.

End QueryExecutionFacts.

(** C2 (the code departs from the claim). The flag is meant to add the
    logging of the plan and nothing else. Run on a transaction with the
    flag set, the function sends "EXPLAIN INSERT INTO t VALUES (1)"
    through [Exec]; with the flag clear it sends the statement
    "INSERT INTO t VALUES (1)" itself. *)
Theorem plan_flag_changes_executed_statement :
  Postgres.executed
    (Postgres.handleQueryExecution Postgres.planStorage Postgres.showQuery
       Postgres.insertWithPlan []).2
  = ["EXPLAIN INSERT INTO t VALUES (1)"]
  /\ Postgres.executed
       (Postgres.handleQueryExecution Postgres.planStorage Postgres.showQuery
          Postgres.insertWithoutPlan []).2
     = ["INSERT INTO t VALUES (1)"].
Proof. split; reflexivity. Qed.

(** The whole run with the flag set: the plan is read and logged, then
    the EXPLAIN statement is executed, then the rows are closed. *)
Example insert_with_plan_trace :
  Postgres.handleQueryExecution Postgres.planStorage Postgres.showQuery
    Postgres.insertWithPlan []
  = ((Some 1%nat, None),
     [Postgres.EvQuery (Postgres.OnTxn 7%nat) "EXPLAIN INSERT INTO t VALUES (1)";
      Postgres.EvInfof
        "[WH][POSTGRES] Execution Query plan for statement: EXPLAIN INSERT INTO t VALUES (1) is Insert on t  (cost=0.00..0.01 rows=1 width=4)";
      Postgres.EvExec (Postgres.OnTxn 7%nat) "EXPLAIN INSERT INTO t VALUES (1)";
      Postgres.EvRowsClose]).
Proof. reflexivity. Qed.

(** * Further properties of the counter cache *)

Section CounterManagerMore.
Import EventSchema.
Context `{ops : CounterOps}.

Implicit Types (m : gmap string FrequencyCounter).
Implicit Types (c : gmap string (gmap string FrequencyCounter)).
Implicit Types (kvs : list (string * FrequencyCounter)).

(** The size of the bucket after a call, for a bound that is not
    negative. *)
Lemma get_len_le rangeOrder c schemaHash key bound :
  range_order rangeOrder ->
  0 <= bound <= GoInt.max_int ->
  len (bucketOf c schemaHash) <= GoInt.max_int ->
  len (bucketOf (getFrequencyCounterBounded rangeOrder c schemaHash key bound).1 schemaHash)
    <= bound.
Proof.
  intros Hp Hb Hmax.
  destruct (Z.lt_total (len (bucketOf c schemaHash)) bound) as [Hlt|[Heq|Hgt]].
  - rewrite get_below_bound by lia. simpl.
    destruct (bucketOf c schemaHash !! key) eqn:Hk; simpl; rewrite bucketOf_insert; [lia|].
    unfold len in *. rewrite map_size_insert_None by done. lia.
  - rewrite get_at_bound by done. simpl. rewrite bucketOf_insert. lia.
  - rewrite get_above_bound by lia. simpl. rewrite bucketOf_insert.
    rewrite trimLoop_range_len by (done || lia). lia.
Qed.

(** Once [toDelete] covers all the keys visited, none of them is left. *)
Lemma trimLoop_all kvs m n k :
  Z.of_nat (length kvs) <= n <= GoInt.max_int ->
  k ∈ kvs.*1 -> trimLoop kvs m n !! k = None.
Proof.
  revert m n. induction kvs as [|[k0 v] rest IH]; intros m n Hn Hin; simpl in *.
  - by apply elem_of_nil in Hin.
  - destruct (0 <? n) eqn:Hpos; [|apply Z.ltb_ge in Hpos; lia].
    apply elem_of_cons in Hin as [->|Hin].
    + eapply lookup_weaken_None; [|apply trimLoop_subseteq]. apply lookup_delete_eq.
    + int_simpl. apply IH; [lia|done].
Qed.

Lemma trimLoop_range_all rangeOrder m n :
  range_order rangeOrder -> len m <= n <= GoInt.max_int ->
  trimLoop (range rangeOrder m) m n = ∅.
Proof.
  intros Hp Hn. apply map_empty. intros k.
  destruct (m !! k) as [v|] eqn:Hk.
  - apply trimLoop_all; [by rewrite range_length|].
    apply list_elem_of_fmap. exists (k, v). split; [done|]. by apply range_lookup.
  - eapply lookup_weaken_None; [done|apply trimLoop_subseteq].
Qed.

(** X1. Below the bound, a field without a counter gets a fresh one: the
    call returns [NewFrequencyCounter key], files it under the key, and
    changes nothing else in the cache. *)
Theorem fresh_field_tracked_below_bound rangeOrder c schemaHash key bound :
  len (bucketOf c schemaHash) < bound <= GoInt.max_int ->
  bucketOf c schemaHash !! key = None ->
  getFrequencyCounterBounded rangeOrder c schemaHash key bound =
    (<[schemaHash := <[key := NewFrequencyCounter key]> (bucketOf c schemaHash)]> c,
     Some (NewFrequencyCounter key)).
Proof.
  intros Hb Hk. rewrite get_below_bound by done. simpl. by rewrite Hk.
Qed.

(** X2. Whatever the bound and the order of the trim, the counter
    returned is the one the cache holds for the field after the call, and
    nil is returned exactly when the field is not tracked after the
    call. *)
Theorem returned_counter_is_cached rangeOrder c schemaHash key bound :
  (getFrequencyCounterBounded rangeOrder c schemaHash key bound).2 =
    bucketOf (getFrequencyCounterBounded rangeOrder c schemaHash key bound).1 schemaHash
      !! key.
Proof.
  rewrite getFrequencyCounterBounded_unfold. simpl.
  repeat case_match; simpl; rewrite bucketOf_insert; try done.
  by rewrite lookup_insert_eq.
Qed.

(** X3. A call never replaces a counter and never adds a field other than
    the requested one: every entry of the bucket after the call was there
    before with the same counter, or is the fresh counter of the requested
    field, which had none. *)
Theorem get_never_replaces_a_counter rangeOrder c schemaHash key bound k v :
  bucketOf (getFrequencyCounterBounded rangeOrder c schemaHash key bound).1 schemaHash
    !! k = Some v ->
  bucketOf c schemaHash !! k = Some v
  \/ (k = key /\ bucketOf c schemaHash !! key = None /\ v = NewFrequencyCounter key).
Proof.
  rewrite getFrequencyCounterBounded_unfold. simpl.
  repeat case_match; simpl; rewrite bucketOf_insert; intros Hkv.
  - by left.
  - left. eapply lookup_weaken; [done|apply trimLoop_subseteq].
  - by left.
  - destruct (decide (k = key)) as [->|Hne].
    + rewrite lookup_insert_eq in Hkv. right. split; [done|]. split; congruence.
    + left. by rewrite lookup_insert_ne in Hkv.
Qed.

(** X4. Asking again changes nothing: for a bound that is not negative, a
    second call with the same schema hash, key and bound returns the same
    counter as the first and leaves the cache as the first call left it,
    whatever the orders of the two trims. *)
Theorem get_twice_is_get_once ro1 ro2 c schemaHash key bound :
  range_order ro1 ->
  0 <= bound <= GoInt.max_int ->
  len (bucketOf c schemaHash) <= GoInt.max_int ->
  let first := getFrequencyCounterBounded ro1 c schemaHash key bound in
  getFrequencyCounterBounded ro2 first.1 schemaHash key bound = first.
Proof.
  intros Hp Hb Hmax. simpl.
  destruct (Z.lt_total (len (bucketOf c schemaHash)) bound) as [Hlt|[Heq|Hgt]].
  - rewrite (get_below_bound ro1) by lia. simpl.
    destruct (bucketOf c schemaHash !! key) as [fc|] eqn:Hk; simpl.
    + rewrite get_below_bound by (rewrite bucketOf_insert; lia). simpl.
      rewrite bucketOf_insert, Hk. by rewrite insert_insert_eq.
    + set (m' := <[key := NewFrequencyCounter key]> (bucketOf c schemaHash)).
      assert (Hlen : len m' = len (bucketOf c schemaHash) + 1).
      { unfold len, m'. rewrite map_size_insert_None by done. lia. }
      destruct (Z.eq_dec (len m') bound) as [Heq|Hne].
      * rewrite get_at_bound by (by rewrite bucketOf_insert).
        rewrite bucketOf_insert, insert_insert_eq. unfold m'. by rewrite lookup_insert_eq.
      * rewrite get_below_bound by (rewrite bucketOf_insert; lia). simpl.
        rewrite bucketOf_insert. unfold m' at 1. rewrite lookup_insert_eq.
        by rewrite insert_insert_eq.
  - rewrite (get_at_bound ro1) by done. simpl.
    rewrite get_at_bound by (by rewrite bucketOf_insert).
    by rewrite bucketOf_insert, insert_insert_eq.
  - rewrite (get_above_bound ro1) by lia. simpl.
    rewrite get_at_bound.
    + by rewrite bucketOf_insert, insert_insert_eq.
    + rewrite bucketOf_insert. rewrite trimLoop_range_len by (done || lia). lia.
Qed.

(** X5. A bound of zero or below tracks nothing: the call leaves the
    bucket of the schema hash empty and returns nil, as long as
    [len - bound] fits in an [int]. *)
Theorem nonpositive_bound_tracks_nothing rangeOrder c schemaHash key bound :
  range_order rangeOrder ->
  bound <= 0 ->
  len (bucketOf c schemaHash) - bound <= GoInt.max_int ->
  let after := getFrequencyCounterBounded rangeOrder c schemaHash key bound in
  bucketOf after.1 schemaHash = ∅ /\ after.2 = None.
Proof.
  intros Hp Hb Hmax. simpl.
  pose proof (len_nonneg (bucketOf c schemaHash)) as Hlen.
  destruct (Z.eq_dec (len (bucketOf c schemaHash)) bound) as [Heq|Hne].
  - rewrite get_at_bound by done. simpl. rewrite bucketOf_insert.
    assert (Hm : bucketOf c schemaHash = ∅).
    { apply map_size_empty_inv. unfold len in *. lia. }
    by rewrite Hm, lookup_empty.
  - rewrite getFrequencyCounterBounded_unfold. simpl.
    rewrite max_int_value in Hmax. int_simpl.
    destruct (_ - _ =? 0) eqn:H0; [apply Z.eqb_eq in H0; lia|].
    destruct (_ - _ <? 0) eqn:H1; [|apply Z.ltb_ge in H1; lia].
    simpl. rewrite bucketOf_insert.
    rewrite trimLoop_range_all by (done || rewrite max_int_value; lia).
    by rewrite lookup_empty.
Qed.

End CounterManagerMore.

(** ** Reload, snapshot and report *)

Section ReloadSnapshotReport.
Import EventSchema.
Context `{ops : CounterOps}.

Implicit Types (m : gmap string FrequencyCounter).
Implicit Types (c : gmap string (gmap string FrequencyCounter)).
Implicit Types (l : list FrequencyCounter).

Lemma foldl_insert_last l m k :
  foldl (fun m fc => <[Name fc := NewPeristedFrequencyCounter fc]> m) m l !! k =
    match last (filter (fun fc => Name fc = k) l) with
    | Some fc => Some (NewPeristedFrequencyCounter fc)
    | None => m !! k
    end.
Proof.
  revert m. induction l as [|fc l IH]; intros m; simpl; [done|].
  rewrite IH. rewrite filter_cons. destruct (decide (Name fc = k)) as [Heq|Hne].
  - rewrite last_cons. destruct (last (filter _ l)); [done|].
    by rewrite Heq, lookup_insert_eq.
  - by rewrite lookup_insert_ne.
Qed.

Lemma foldl_insert_size_distinct l m :
  NoDup (Name <$> l) ->
  (forall fc, fc ∈ l -> m !! Name fc = None) ->
  size (foldl (fun m fc => <[Name fc := NewPeristedFrequencyCounter fc]> m) m l)
    = (size m + length l)%nat.
Proof.
  revert m. induction l as [|fc l IH]; intros m Hnd Hfresh; simpl; [lia|].
  simpl in Hnd. inversion Hnd as [|? ? Hfc Hnd']; subst.
  rewrite IH; [|done|].
  - rewrite map_size_insert_None by (apply Hfresh; left). lia.
  - intros fc' Hin. rewrite lookup_insert_ne; [apply Hfresh; by right|].
    intros Heq. apply Hfc. rewrite Heq. apply list_elem_of_fmap. by exists fc'.
Qed.

Lemma foldl_insert_notin l m k :
  k ∉ Name <$> l ->
  foldl (fun m fc => <[Name fc := NewPeristedFrequencyCounter fc]> m) m l !! k = m !! k.
Proof.
  revert m. induction l as [|fc l IH]; intros m Hk; simpl; [done|].
  simpl in Hk. apply not_elem_of_cons in Hk as [Hne Hk].
  rewrite IH by done. by rewrite lookup_insert_ne.
Qed.

Lemma foldl_insert_lookup_distinct l m fc :
  NoDup (Name <$> l) -> fc ∈ l ->
  foldl (fun m fc => <[Name fc := NewPeristedFrequencyCounter fc]> m) m l !! Name fc
    = Some (NewPeristedFrequencyCounter fc).
Proof.
  revert m. induction l as [|x l IH]; intros m Hnd Hin; simpl.
  - by apply elem_of_nil in Hin.
  - simpl in Hnd. inversion Hnd as [|? ? Hx Hnd']; subst.
    apply elem_of_cons in Hin as [->|Hin].
    + rewrite foldl_insert_notin by done. apply lookup_insert_eq.
    + by apply IH.
Qed.

(** X6. After a reload the bucket files, under each name, the last
    counter of that name among the first [bound] persisted counters,
    wrapped by the persisted-counter constructor; a name that does not
    occur among them has no counter. *)
Theorem reload_keeps_last_of_each_name c schemaHash l bound k :
  GoInt.in_range bound ->
  bucketOf (populateFrequencyCountersBounded c schemaHash l bound) schemaHash !! k =
    NewPeristedFrequencyCounter
      <$> last (filter (fun fc => Name fc = k) (take (Z.to_nat bound) l)).
Proof.
  intros [_ Hb]. rewrite populate_truncated by done. rewrite bucketOf_insert.
  unfold truncatedBucket. rewrite foldl_insert_last.
  by destruct (last _).
Qed.

(** X7. When the first [bound] persisted counters have distinct names,
    the reloaded bucket has exactly as many counters as that prefix,
    which is the smaller of [bound] and the length of the list, and every
    counter of the prefix is found under its name. *)
Theorem reload_distinct_names_exact c schemaHash l bound :
  GoInt.in_range bound ->
  NoDup (Name <$> take (Z.to_nat bound) l) ->
  let after := bucketOf (populateFrequencyCountersBounded c schemaHash l bound) schemaHash in
  size after = (Z.to_nat bound `min` length l)%nat
  /\ forall fc, fc ∈ take (Z.to_nat bound) l ->
       after !! Name fc = Some (NewPeristedFrequencyCounter fc).
Proof.
  intros [_ Hb] Hnd. simpl. rewrite populate_truncated by done. rewrite bucketOf_insert.
  unfold truncatedBucket. split.
  - rewrite foldl_insert_size_distinct by done.
    rewrite map_size_empty, length_take. lia.
  - intros fc Hin. by apply foldl_insert_lookup_distinct.
Qed.

(** X8. A reload and then a get with the same bound (not negative)
    evicts nothing: every reloaded counter is still in the bucket after
    the get, and a get for a reloaded field returns its reloaded counter
    and leaves the cache as the reload left it. *)
Theorem get_after_reload_keeps_reloaded rangeOrder c schemaHash l bound key :
  0 <= bound <= GoInt.max_int ->
  let reloaded := populateFrequencyCountersBounded c schemaHash l bound in
  let after := getFrequencyCounterBounded rangeOrder reloaded schemaHash key bound in
  bucketOf reloaded schemaHash ⊆ bucketOf after.1 schemaHash
  /\ forall fc, bucketOf reloaded schemaHash !! key = Some fc ->
       after = (reloaded, Some fc).
Proof.
  intros Hb. simpl. rewrite populate_truncated by lia.
  set (m := truncatedBucket l bound).
  assert (Hm : bucketOf (<[schemaHash := m]> c) schemaHash = m) by apply bucketOf_insert.
  pose proof (truncatedBucket_len l bound (proj1 Hb)) as Hlen. fold m in Hlen.
  destruct (Z.eq_dec (len m) bound) as [Heq|Hne].
  - rewrite get_at_bound by (by rewrite Hm). simpl.
    rewrite !Hm, bucketOf_insert, insert_insert_eq. split; [done|].
    by intros fc ->.
  - rewrite get_below_bound by (rewrite Hm; lia). simpl. rewrite !Hm.
    destruct (m !! key) as [fc|] eqn:Hk; simpl; rewrite bucketOf_insert, insert_insert_eq.
    + split; [done|]. by intros fc' [= ->].
    + split; [by apply insert_subseteq|done].
Qed.

(** X9. A reload with an empty list, or with a bound of zero or below,
    leaves the schema hash with an empty bucket: the counters cached for
    it before are gone. *)
Theorem reload_of_nothing_empties_bucket c schemaHash l bound :
  GoInt.in_range bound ->
  l = [] \/ bound <= 0 ->
  populateFrequencyCountersBounded c schemaHash l bound !! schemaHash = Some ∅.
Proof.
  intros [_ Hb] Hcase. rewrite populate_truncated by done. rewrite lookup_insert_eq.
  f_equal. unfold truncatedBucket. destruct Hcase as [->|Hle].
  - by rewrite take_nil.
  - by replace (Z.to_nat bound) with 0%nat by lia.
Qed.

(** X10. The snapshot [getAllFrequencyCounters] holds exactly the
    counters of the bucket, each entry once: it is a permutation of the
    values of the bucket, as long as the bucket, and empty for a schema
    hash the cache does not have. *)
Theorem snapshot_is_the_bucket rangeOrder c schemaHash :
  range_order rangeOrder ->
  getAllFrequencyCounters rangeOrder c schemaHash ≡ₚ (map_to_list (bucketOf c schemaHash)).*2
  /\ length (getAllFrequencyCounters rangeOrder c schemaHash) = size (bucketOf c schemaHash)
  /\ (forall fc, fc ∈ getAllFrequencyCounters rangeOrder c schemaHash <->
                 exists k, bucketOf c schemaHash !! k = Some fc)
  /\ (c !! schemaHash = None -> getAllFrequencyCounters rangeOrder c schemaHash = []).
Proof.
  intros Hp.
  assert (Hperm : getAllFrequencyCounters rangeOrder c schemaHash
                  ≡ₚ (map_to_list (bucketOf c schemaHash)).*2).
  { unfold getAllFrequencyCounters, bucketOf, range.
    destruct (c !! schemaHash) as [m|]; simpl.
    - by rewrite (Hp (map_to_list m)).
    - by rewrite map_to_list_empty. }
  split; [done|]. split; [|split].
  - rewrite Hperm, length_fmap. apply length_map_to_list.
  - intros fc. rewrite Hperm. rewrite list_elem_of_fmap. split.
    + intros [[k v] [-> Hkv]]. exists k. by apply elem_of_map_to_list.
    + intros [k Hk]. exists (k, fc). split; [done|]. by apply elem_of_map_to_list.
  - intros Hc. unfold getAllFrequencyCounters. by rewrite Hc.
Qed.

(** X11. What is handed to a flush is bounded: after a get or a reload
    with a bound that is not negative, the snapshot of the schema hash
    has at most [bound] counters. *)
Theorem snapshot_within_bound ro1 ro2 c schemaHash key l bound :
  range_order ro1 -> range_order ro2 ->
  0 <= bound <= GoInt.max_int ->
  len (bucketOf c schemaHash) <= GoInt.max_int ->
  Z.of_nat (length (getAllFrequencyCounters ro2
             (getFrequencyCounterBounded ro1 c schemaHash key bound).1 schemaHash)) <= bound
  /\ Z.of_nat (length (getAllFrequencyCounters ro2
                (populateFrequencyCountersBounded c schemaHash l bound) schemaHash)) <= bound.
Proof.
  intros Hp1 Hp2 Hb Hmax.
  assert (Hlen : forall c', Z.of_nat (length (getAllFrequencyCounters ro2 c' schemaHash))
                            = len (bucketOf c' schemaHash)).
  { intros c'. unfold getAllFrequencyCounters, bucketOf, range, len.
    destruct (c' !! schemaHash) as [m|]; simpl.
    - by rewrite length_fmap, (Hp2 (map_to_list m)), length_map_to_list.
    - by rewrite map_size_empty. }
  rewrite !Hlen. split.
  - by apply get_len_le.
  - rewrite populate_truncated by lia. rewrite bucketOf_insert.
    apply truncatedBucket_len; lia.
Qed.

(** X12. The report does not depend on the order in which the bucket is
    walked: it is the bucket with every counter replaced by its capped
    items, and the counters without items left out. *)
Theorem report_is_order_independent rangeOrder c schemaHash :
  range_order rangeOrder ->
  getSchemaVersionCounters rangeOrder c schemaHash =
    omap (fun fc => match ItemsAboveThreshold fc with
                    | [] => None
                    | entries => Some (counterItemsOf entries)
                    end) (bucketOf c schemaHash).
Proof.
  intros Hp. apply map_eq. intros key.
  rewrite getSchemaVersionCounters_lookup by done. rewrite lookup_omap.
  by destruct (bucketOf c schemaHash !! key).
Qed.

(** X13. Whatever the counters report (negative or NaN frequencies
    included), no frequency in the report compares above 1. *)
Theorem reported_frequency_never_above_one rangeOrder c schemaHash key items item :
  range_order rangeOrder ->
  getSchemaVersionCounters rangeOrder c schemaHash !! key = Some items ->
  item ∈ items ->
  SFltb float_one (Frequency item) = false.
Proof.
  intros Hp Hlookup Hitem.
  rewrite getSchemaVersionCounters_lookup in Hlookup by done.
  destruct (bucketOf c schemaHash !! key) as [fc|]; [|done].
  destruct (ItemsAboveThreshold fc) as [|entry entries]; [done|].
  injection Hlookup as <-.
  change (item ∈ capEntry <$> (entry :: entries)) in Hitem.
  apply list_elem_of_fmap in Hitem as [e [-> _]].
  unfold capEntry. simpl.
  by destruct (SFltb float_one (Entry.Frequency e)) eqn:Habove.
Qed.

(** X14. Only tracked fields are reported: the fields of the report are
    among the fields of the bucket, so the report has at most as many
    fields as the bucket, and a schema hash the cache does not have
    gives the empty report. *)
Theorem report_fields_are_tracked rangeOrder c schemaHash :
  range_order rangeOrder ->
  dom (getSchemaVersionCounters rangeOrder c schemaHash) ⊆ dom (bucketOf c schemaHash)
  /\ (size (getSchemaVersionCounters rangeOrder c schemaHash)
        <= size (bucketOf c schemaHash))%nat
  /\ (c !! schemaHash = None -> getSchemaVersionCounters rangeOrder c schemaHash = ∅).
Proof.
  intros Hp.
  assert (Hdom : dom (getSchemaVersionCounters rangeOrder c schemaHash)
                 ⊆ dom (bucketOf c schemaHash)).
  { intros key [items Hk]%elem_of_dom. apply elem_of_dom.
    rewrite getSchemaVersionCounters_lookup in Hk by done.
    destruct (bucketOf c schemaHash !! key); [by eexists|done]. }
  split; [done|]. split.
  - rewrite <- !size_dom. by apply subseteq_size.
  - intros Hc. apply map_empty. intros key.
    rewrite getSchemaVersionCounters_lookup by done.
    unfold bucketOf. by rewrite Hc.
Qed.

End ReloadSnapshotReport.

(** * Further properties of the query execution helper *)

Section QueryExecutionMore.
Import Postgres.
Context {Tx DB Result : Type}.
Context (storage : @Storage Tx DB Result).
Context (fmtQueryExecution : @QueryExecution Tx DB -> string).

Implicit Types (e : @QueryExecution Tx DB) (c : @conn Tx DB) (tr : list (@event Tx DB)).

Abbreviation run := (handleQueryExecution storage fmtQueryExecution).
Abbreviation explain e := ("EXPLAIN " +:+ query e).

(** The five ways a run can go. *)
Lemma run_cases e tr :
  (handleOf e = None
   /\ run e tr =
        ((None, Some (errNoHandle (if enableWithQueryPlan e then explain e else query e))),
         tr ++ []))
  \/ (exists c, handleOf e = Some c /\ enableWithQueryPlan e = false
       /\ run e tr = (onExec storage tr c (query e), tr ++ [EvExec c (query e)]))
  \/ (exists c err, handleOf e = Some c /\ enableWithQueryPlan e = true
       /\ onQuery storage tr c (explain e) = inl err
       /\ run e tr = ((None, Some (errQuery (explain e) err)), tr ++ [EvQuery c (explain e)]))
  \/ (exists c rows err, handleOf e = Some c /\ enableWithQueryPlan e = true
       /\ onQuery storage tr c (explain e) = inr rows
       /\ scanRows rows [] = inl err
       /\ run e tr = ((None, Some (errScan fmtQueryExecution e err)),
                      tr ++ [EvQuery c (explain e); EvRowsClose]))
  \/ (exists c rows response, handleOf e = Some c /\ enableWithQueryPlan e = true
       /\ onQuery storage tr c (explain e) = inr rows
       /\ scanRows rows [] = inr response
       /\ run e tr =
            (onExec storage
               (tr ++ [EvQuery c (explain e); EvInfof (planMessage (explain e) response)])
               c (explain e),
             tr ++ [EvQuery c (explain e); EvInfof (planMessage (explain e) response);
                    EvExec c (explain e); EvRowsClose])).
Proof.
  unfold handleQueryExecution, execStatement, bind, Query, Exec, emit, ret.
  destruct (handleOf e) as [c|] eqn:Hc.
  2: { left. split; [done|]. rewrite app_nil_r. by destruct (enableWithQueryPlan e). }
  right. destruct (enableWithQueryPlan e) eqn:Hflag.
  2: { left. by exists c. }
  right. destruct (onQuery storage tr c (explain e)) as [err|rows] eqn:Hq.
  { left. by exists c, err. }
  right. destruct (scanRows rows []) as [err|response] eqn:Hscan.
  { left. exists c, rows, err. simpl. by rewrite <- !app_assoc. }
  right. exists c, rows, response. simpl. by rewrite <- !app_assoc.
Qed.

Lemma added_app e tr evs : (run e tr).2 = tr ++ evs -> added storage fmtQueryExecution e tr = evs.
Proof. intros Heq. unfold added. rewrite Heq. by rewrite drop_app_length. Qed.

(** Case analysis on a run, with the added events computed. *)
Ltac run_case e tr H :=
  let Hadd := fresh "Hadd" in
  destruct (run_cases e tr) as
    [(Hc & H)|[(c & Hc & Hflag & H)|[(c & err & Hc & Hflag & Hq & H)
    |[(c & rows & err & Hc & Hflag & Hq & Hscan & H)
     |(c & rows & response & Hc & Hflag & Hq & Hscan & H)]]]];
  pose proof (added_app e tr _ (f_equal snd H)) as Hadd;
  rewrite ?Hadd, ?H; unfold executed, sent; simpl.

Ltac in_list H :=
  repeat (apply elem_of_cons in H as [?|H]; [simplify_eq|]);
  try by apply elem_of_nil in H.

(** X15. A run only appends to the trace, and what it appends is small:
    at most one statement through [Exec], at most two statements in all,
    each of them the query or the query prefixed with EXPLAIN; with the
    flag clear nothing goes through [Query] and nothing is logged. *)
Theorem run_appends_at_most_two_statements e tr :
  let evs := added storage fmtQueryExecution e tr in
  (run e tr).2 = tr ++ evs
  /\ (length (executed evs) <= 1)%nat
  /\ (length (sent evs) <= 2)%nat
  /\ (forall s, s ∈ sent evs -> s = query e \/ s = explain e)
  /\ (enableWithQueryPlan e = false -> evs = [] \/ exists c, evs = [EvExec c (query e)]).
Proof.
  simpl. run_case e tr H.
  all: split; [done|]; split; [lia|]; split; [lia|]; split.
  all: try (intros s Hs; in_list Hs; by (left + right)).
  all: try (intros ?; congruence).
  - by left.
  - intros _. right. by exists c.
Qed.

(** X16. The transaction takes precedence: every statement of a run goes
    to the transaction when there is one, and to the pooled handle only
    when there is no transaction. *)
Theorem transaction_takes_precedence e tr ev c' :
  ev ∈ added storage fmtQueryExecution e tr ->
  eventConn ev = Some c' ->
  match c' with
  | OnTxn t => txn e = Some t
  | OnDb d => txn e = None /\ db e = Some d
  end.
Proof.
  assert (Hh : forall c, handleOf e = Some c ->
                 match c with
                 | OnTxn t => txn e = Some t
                 | OnDb d => txn e = None /\ db e = Some d
                 end).
  { unfold handleOf. intros c Hc. destruct (txn e), (db e); by simplify_eq. }
  run_case e tr H; intros Hev Hconn; in_list Hev; simpl in Hconn; simplify_eq;
    by apply Hh.
Qed.

(** X17. When the plan cannot be read, because the EXPLAIN query fails or
    because a row cannot be scanned, the run stops there: nothing goes
    through [Exec], nothing is logged, the result is nil and the error
    returned wraps the error of the driver. *)
Theorem plan_failure_executes_nothing e tr handle cause :
  enableWithQueryPlan e = true ->
  handleOf e = Some handle ->
  onQuery storage tr handle (explain e) = inl cause
  \/ (exists rows, onQuery storage tr handle (explain e) = inr rows
                   /\ scanRows rows [] = inl cause) ->
  (exists msg, (run e tr).1 = (None, Some (ErrWrap msg cause)))
  /\ executed (added storage fmtQueryExecution e tr) = []
  /\ (forall msg, EvInfof msg ∉ added storage fmtQueryExecution e tr).
Proof.
  intros Hflag' Hc' Hfail.
  run_case e tr H.
  all: destruct Hfail as [Hq'|(rows' & Hq' & Hscan')].
  all: try congruence.
  all: assert (c = handle) as -> by congruence.
  all: try (assert (rows = rows') as -> by congruence).
  all: assert (err = cause) as -> by congruence.
  all: split; [by eexists|]; split; [done|].
  all: intros msg Hin; in_list Hin.
Qed.

(** X18. Rows are closed exactly when they were opened: [rows.Close()]
    is among the events of a run if and only if the flag is set and the
    EXPLAIN query succeeded, and then it is the last event of the run. *)
Theorem rows_closed_iff_opened e tr :
  let evs := added storage fmtQueryExecution e tr in
  (EvRowsClose ∈ evs <->
     exists c rows, handleOf e = Some c /\ enableWithQueryPlan e = true
                    /\ onQuery storage tr c (explain e) = inr rows)
  /\ (EvRowsClose ∈ evs -> last evs = Some EvRowsClose).
Proof.
  simpl. run_case e tr H.
  all: split; [split|]; try done.
  all: try (intros Hin; by in_list Hin).
  all: try (intros (c' & rows' & ? & ? & ?); congruence).
  all: try (intros _; exists c, rows; done).
  all: try (intros _; set_solver-).
Qed.

(** X19. A run never ends silently without having executed a statement:
    when nothing went through [Exec], the result is nil and the error is
    not. *)
Theorem nothing_executed_means_error e tr :
  executed (added storage fmtQueryExecution e tr) = [] ->
  exists err, (run e tr).1 = (None, Some err).
Proof.
  run_case e tr H; intros Hex; try done; by eexists.
Qed.

(** X20. What [Exec] answers is what the run returns: when a statement
    went through [Exec], the result and the error of the run are those
    [Exec] gave for that statement, unchanged. *)
Theorem exec_answer_is_returned e tr s :
  s ∈ executed (added storage fmtQueryExecution e tr) ->
  exists c pre post,
    added storage fmtQueryExecution e tr = pre ++ EvExec c s :: post
    /\ (run e tr).1 = onExec storage (tr ++ pre) c s.
Proof.
  run_case e tr H; intros Hs; in_list Hs.
  - exists c, [], []. by rewrite app_nil_r.
  - by exists c, [EvQuery c (explain e); EvInfof (planMessage (explain e) response)],
      [EvRowsClose].
Qed.

(** X21. Reading the plan collects the rows in order up to the first one
    that cannot be scanned: rows that all scan give their strings after
    what was collected before, and the first failing row gives its error,
    whatever comes after it. *)
Theorem scanRows_collects_until_first_error (ss : list string) (err : error)
    (rest : list (error + string)) (response : list string) :
  scanRows (inr <$> ss) response = inr (response ++ ss)
  /\ scanRows ((inr <$> ss) ++ inl err :: rest) response = inl err.
Proof.
  revert response. induction ss as [|s ss IH]; intros response; simpl.
  - by rewrite app_nil_r.
  - destruct (IH (response ++ [s])) as [IH1 IH2].
    split; [|exact IH2]. etrans; [exact IH1|]. by rewrite <- app_assoc.
Qed.

End QueryExecutionMore.

(** ** The further properties at concrete inputs *)

Section MoreTallyRuns.
Import EventSchema.

Lemma fresh_field_tracked_below_bound_witness :
  getFrequencyCounterBounded (ops := tallyOps) reverse tallyCache "hash" "D" 5 =
    (<["hash" := <["D" := mkTally "D" []]> (bucketOf (ops := tallyOps) tallyCache "hash")]>
       tallyCache,
     Some (mkTally "D" [])).
Proof.
  apply (fresh_field_tracked_below_bound (ops := tallyOps) reverse tallyCache "hash" "D" 5).
  - split; by vm_compute.
  - reflexivity.
Defined.

Lemma get_never_replaces_a_counter_witness :
  bucketOf (ops := tallyOps) tallyCache "hash" !! "D" = Some (mkTally "D" [])
  \/ ("D" = "D" /\ bucketOf (ops := tallyOps) tallyCache "hash" !! "D" = None
      /\ mkTally "D" [] = NewFrequencyCounter (CounterOps := tallyOps) "D").
Proof.
  apply (get_never_replaces_a_counter (ops := tallyOps) reverse tallyCache "hash" "D" 5
           "D" (mkTally "D" [])).
  reflexivity.
Defined.

Lemma get_twice_is_get_once_witness :
  getFrequencyCounterBounded (ops := tallyOps) (fun kvs => kvs)
    (getFrequencyCounterBounded (ops := tallyOps) reverse tallyCache "hash" "C" 1).1
    "hash" "C" 1
  = getFrequencyCounterBounded (ops := tallyOps) reverse tallyCache "hash" "C" 1.
Proof.
  apply (get_twice_is_get_once (ops := tallyOps) reverse (fun kvs => kvs) tallyCache
           "hash" "C" 1).
  - apply range_order_reverse.
  - split; by vm_compute.
  - by vm_compute.
Defined.

Lemma nonpositive_bound_tracks_nothing_witness :
  bucketOf (ops := tallyOps)
    (getFrequencyCounterBounded (ops := tallyOps) reverse tallyCache "hash" "A" (-2)).1
    "hash" = ∅
  /\ (getFrequencyCounterBounded (ops := tallyOps) reverse tallyCache "hash" "A" (-2)).2
     = None.
Proof.
  apply (nonpositive_bound_tracks_nothing (ops := tallyOps) reverse tallyCache "hash" "A" (-2)).
  - apply range_order_reverse.
  - lia.
  - by vm_compute.
Defined.

Lemma reload_keeps_last_of_each_name_witness :
  bucketOf (ops := tallyOps)
    (populateFrequencyCountersBounded (ops := tallyOps) tallyCache "hash"
       [tallyC; mkTally "C" []; tallyA] 2) "hash" !! "C"
  = NewPeristedFrequencyCounter (CounterOps := tallyOps)
      <$> last (filter (fun fc => tallyName fc = "C")
                       (take (Z.to_nat 2) [tallyC; mkTally "C" []; tallyA])).
Proof.
  apply (reload_keeps_last_of_each_name (ops := tallyOps) tallyCache "hash"
           [tallyC; mkTally "C" []; tallyA] 2 "C").
  split; by vm_compute.
Defined.

Lemma reload_distinct_names_exact_witness :
  let after := bucketOf (ops := tallyOps)
                 (populateFrequencyCountersBounded (ops := tallyOps) tallyCache "hash"
                    [tallyC; tallyB; tallyA] 2) "hash" in
  size after = (Z.to_nat 2 `min` length [tallyC; tallyB; tallyA])%nat
  /\ forall fc, fc ∈ take (Z.to_nat 2) [tallyC; tallyB; tallyA] ->
       after !! tallyName fc = Some (NewPeristedFrequencyCounter (CounterOps := tallyOps) fc).
Proof.
  apply (reload_distinct_names_exact (ops := tallyOps) tallyCache "hash"
           [tallyC; tallyB; tallyA] 2).
  - split; by vm_compute.
  - apply (bool_decide_unpack _). by vm_compute.
Defined.

Lemma get_after_reload_keeps_reloaded_witness :
  let reloaded := populateFrequencyCountersBounded (ops := tallyOps) tallyCache "hash"
                    [tallyC; tallyB; tallyA] 2 in
  let after := getFrequencyCounterBounded (ops := tallyOps) reverse reloaded "hash" "C" 2 in
  bucketOf (ops := tallyOps) reloaded "hash" ⊆ bucketOf (ops := tallyOps) after.1 "hash"
  /\ forall fc, bucketOf (ops := tallyOps) reloaded "hash" !! "C" = Some fc ->
       after = (reloaded, Some fc).
Proof.
  apply (get_after_reload_keeps_reloaded (ops := tallyOps) reverse tallyCache "hash"
           [tallyC; tallyB; tallyA] 2 "C").
  split; by vm_compute.
Defined.

Lemma reload_of_nothing_empties_bucket_witness :
  populateFrequencyCountersBounded (ops := tallyOps) tallyCache "hash" [] 3 !! "hash"
  = Some ∅.
Proof.
  apply (reload_of_nothing_empties_bucket (ops := tallyOps) tallyCache "hash" [] 3).
  - split; by vm_compute.
  - by left.
Defined.

Lemma snapshot_is_the_bucket_witness :
  getAllFrequencyCounters (ops := tallyOps) reverse tallyCache "hash"
    ≡ₚ (map_to_list (bucketOf (ops := tallyOps) tallyCache "hash")).*2
  /\ length (getAllFrequencyCounters (ops := tallyOps) reverse tallyCache "hash")
     = size (bucketOf (ops := tallyOps) tallyCache "hash")
  /\ (forall fc, fc ∈ getAllFrequencyCounters (ops := tallyOps) reverse tallyCache "hash" <->
                 exists k, bucketOf (ops := tallyOps) tallyCache "hash" !! k = Some fc)
  /\ (tallyCache !! "hash" = None ->
      getAllFrequencyCounters (ops := tallyOps) reverse tallyCache "hash" = []).
Proof.
  apply (snapshot_is_the_bucket (ops := tallyOps) reverse tallyCache "hash").
  apply range_order_reverse.
Defined.

Lemma snapshot_within_bound_witness :
  Z.of_nat (length (getAllFrequencyCounters (ops := tallyOps) (fun kvs => kvs)
             (getFrequencyCounterBounded (ops := tallyOps) reverse tallyCache "hash" "D" 2).1
             "hash")) <= 2
  /\ Z.of_nat (length (getAllFrequencyCounters (ops := tallyOps) (fun kvs => kvs)
                (populateFrequencyCountersBounded (ops := tallyOps) tallyCache "hash"
                   [tallyC; tallyB; tallyA] 2) "hash")) <= 2.
Proof.
  apply (snapshot_within_bound (ops := tallyOps) reverse (fun kvs => kvs) tallyCache
           "hash" "D" [tallyC; tallyB; tallyA] 2).
  - apply range_order_reverse.
  - apply range_order_id.
  - split; by vm_compute.
  - by vm_compute.
Defined.

Lemma report_is_order_independent_witness :
  getSchemaVersionCounters (ops := tallyOps) reverse tallyCache "hash" =
    omap (fun fc => match ItemsAboveThreshold (CounterOps := tallyOps) fc with
                    | [] => None
                    | entries => Some (counterItemsOf entries)
                    end) (bucketOf (ops := tallyOps) tallyCache "hash").
Proof.
  apply (report_is_order_independent (ops := tallyOps) reverse tallyCache "hash").
  apply range_order_reverse.
Defined.

Lemma reported_frequency_never_above_one_witness :
  SFltb float_one (Frequency (mkCounterItem "red" float_one)) = false.
Proof.
  apply (reported_frequency_never_above_one (ops := tallyOps) reverse tallyCache "hash" "A"
           [mkCounterItem "red" float_one; mkCounterItem "blue" float_one]
           (mkCounterItem "red" float_one)).
  - apply range_order_reverse.
  - by vm_compute.
  - left.
Defined.

Lemma report_fields_are_tracked_witness :
  dom (getSchemaVersionCounters (ops := tallyOps) reverse tallyCache "hash")
    ⊆ dom (bucketOf (ops := tallyOps) tallyCache "hash")
  /\ (size (getSchemaVersionCounters (ops := tallyOps) reverse tallyCache "hash")
        <= size (bucketOf (ops := tallyOps) tallyCache "hash"))%nat
  /\ (tallyCache !! "hash" = None ->
      getSchemaVersionCounters (ops := tallyOps) reverse tallyCache "hash" = ∅).
Proof.
  apply (report_fields_are_tracked (ops := tallyOps) reverse tallyCache "hash").
  apply range_order_reverse.
Defined.

End MoreTallyRuns.

Section MoreQueryRuns.
Import Postgres.

Lemma transaction_takes_precedence_witness :
  txn insertWithPlan = Some 7%nat.
Proof.
  apply (transaction_takes_precedence planStorage showQuery insertWithPlan []
           (EvExec (OnTxn 7%nat) "EXPLAIN INSERT INTO t VALUES (1)") (OnTxn 7%nat)).
  - vm_compute. do 2 right. left.
  - reflexivity.
Defined.

Lemma plan_failure_executes_nothing_witness :
  (exists msg, (handleQueryExecution refusingStorage showQuery insertWithPlan []).1
               = (None, Some (ErrWrap msg (ErrNew "syntax error"))))
  /\ executed (added refusingStorage showQuery insertWithPlan []) = []
  /\ (forall msg, EvInfof msg ∉ added refusingStorage showQuery insertWithPlan []).
Proof.
  apply (plan_failure_executes_nothing refusingStorage showQuery insertWithPlan []
           (OnTxn 7%nat) (ErrNew "syntax error")).
  - reflexivity.
  - reflexivity.
  - by left.
Defined.

(** A run whose second row cannot be scanned: the rows are closed, the
    third row is never read, nothing is executed. *)
Example broken_rows_trace :
  handleQueryExecution brokenRowsStorage showQuery insertWithPlan []
  = ((None,
      Some (ErrWrap
              "[WH][POSTGRES] Error occurred while processing destination revisionID query INSERT INTO t VALUES (1) with err: scan failed"
              (ErrNew "scan failed"))),
     [EvQuery (OnTxn 7%nat) "EXPLAIN INSERT INTO t VALUES (1)"; EvRowsClose]).
Proof. reflexivity. Qed.

Lemma nothing_executed_means_error_witness :
  exists err, (handleQueryExecution refusingStorage showQuery insertWithPlan []).1
              = (None, Some err).
Proof.
  apply (nothing_executed_means_error refusingStorage showQuery insertWithPlan []).
  reflexivity.
Defined.

Lemma exec_answer_is_returned_witness :
  exists c pre post,
    added planStorage showQuery insertWithoutPlan []
      = pre ++ EvExec c "INSERT INTO t VALUES (1)" :: post
    /\ (handleQueryExecution planStorage showQuery insertWithoutPlan []).1
       = onExec planStorage ([] ++ pre) c "INSERT INTO t VALUES (1)".
Proof.
  apply (exec_answer_is_returned planStorage showQuery insertWithoutPlan []
           "INSERT INTO t VALUES (1)").
  vm_compute. left.
Defined.

End MoreQueryRuns.
